(** * HomeScreen (pages/HomeScreen.jsx): lookup history, map sync, address checks

    Shallow embedding of the React component [HomeScreen]: the component's
    state ([geo], [search], [error], [history], [selectedForDelete]), its
    handlers ([fetchGeoFor], [handleSearch], [handleClear],
    [handleHistoryClick], [toggleSelect], [deleteSelected], the Clear All
    button), the map-update effect and the history initialiser; the
    request URL, the history rows and the JSON written to storage; and,
    from its caller [App.jsx], the routes, [ProtectedRoute] and the Logout
    button. *)

From Stdlib Require Import String Ascii List Bool ZArith NArith Lia.
From stdpp Require Import base gmap strings.
Import ListNotations.
Open Scope string_scope.

(* ------------------------------------------------------------------ *)
(** ** Data *)

(** A response body of ipinfo.io as the component reads it: every field
    it looks at is optional ([undefined] when the provider omits it). *)
Record GeoRecord := mkGeo {
  g_ip : option string;
  g_city : option string;
  g_region : option string;
  g_country : option string;
  g_loc : option string;
  g_org : option string
}.

(** [{ ip: query, data, when: new Date().toISOString() }] *)
Record HistoryEntry := mkEntry {
  h_ip : string;
  h_data : GeoRecord;
  h_when : string
}.

(** JavaScript truthiness of an optional string field. *)
Definition truthy (o : option string) : bool :=
  match o with
  | Some s => negb (String.eqb s "")
  | None => false
  end.

(* ------------------------------------------------------------------ *)
(** ** The history updater of [fetchGeoFor]

<<
  const entry = { ip: query, data, when: new Date().toISOString() };
  setHistory((prev) => {
    const deduped = [entry, ...prev.filter((h) => h.ip !== query)].slice(0, 50);
    localStorage.setItem(STORAGE_KEY, JSON.stringify(deduped));
    return deduped;
  });
>> *)

Definition HISTORY_CAP : nat := 50.

Definition record_lookup (query : string) (data : GeoRecord) (when : string)
    (prev : list HistoryEntry) : list HistoryEntry :=
  let entry := mkEntry query data when in
  firstn HISTORY_CAP
    (entry :: List.filter (fun h => negb (String.eqb (h_ip h) query)) prev).

(** A run of successive history updates, oldest first. *)
Fixpoint record_all (calls : list (string * GeoRecord * string))
    (prev : list HistoryEntry) : list HistoryEntry :=
  match calls with
  | [] => prev
  | (q, d, w) :: rest => record_all rest (record_lookup q d w prev)
  end.

(* ------------------------------------------------------------------ *)
(** ** Selection for deletion

    [selectedForDelete] is a JS object from index to boolean; a missing
    key reads as [undefined] (falsy). *)

Definition Selection := gmap nat bool.

Definition sel_get (sel : Selection) (idx : nat) : bool :=
  match sel !! idx with Some b => b | None => false end.

(** [setSelectedForDelete((prev) => ({ ...prev, [idx]: !prev[idx] }))] *)
Definition toggleSelect (idx : nat) (sel : Selection) : Selection :=
  <[idx := negb (sel_get sel idx)]> sel.

(** [history.filter((_, idx) => !selectedForDelete[idx])] *)
Fixpoint filter_unselected {A} (sel : Selection) (idx : nat) (l : list A)
    : list A :=
  match l with
  | [] => []
  | x :: rest =>
      if sel_get sel idx then filter_unselected sel (S idx) rest
      else x :: filter_unselected sel (S idx) rest
  end.

(* ------------------------------------------------------------------ *)
(** ** Address checks: [IP_REGEX] and [handleSearch]

<<
const IP_REGEX = {
  ipv4: /^(25[0-5]|2[0-4]\d|1?\d{1,2})(\.(25[0-5]|2[0-4]\d|1?\d{1,2})){3}$/,
  ipv6: /^(([0-9a-fA-F]{1,4}:){7}[0-9a-fA-F]{1,4}|::1)$/,
};
>>
    The two regular expressions use no star, no lookaround and no flag, so
    a backtracking matcher over a small syntax of character classes,
    concatenation and ordered alternation decides [test] exactly. *)

Module Validator.

Inductive re :=
| Eps : re
| Cls : (ascii -> bool) -> re
| Seq : re -> re -> re
| Alt : re -> re -> re.

(** Backtracking matcher in continuation style: [mt r s k] is true when
    some way of matching [r] on a prefix of [s] leaves a rest accepted by
    [k]. *)
Fixpoint mt (r : re) (s : list ascii) (k : list ascii -> bool) : bool :=
  match r with
  | Eps => k s
  | Cls p => match s with c :: s' => p c && k s' | [] => false end
  | Seq r1 r2 => mt r1 s (fun s' => mt r2 s' k)
  | Alt r1 r2 => mt r1 s k || mt r2 s k
  end.

Definition at_end (s : list ascii) : bool :=
  match s with [] => true | _ :: _ => false end.

(** [/^r$/.test(s)] *)
Definition test (r : re) (s : list ascii) : bool := mt r s at_end.

Definition in_range (lo hi c : ascii) : bool :=
  (N_of_ascii lo <=? N_of_ascii c)%N && (N_of_ascii c <=? N_of_ascii hi)%N.

(** [\d]: without the [u] flag only the ASCII digits. *)
Definition is_digit (c : ascii) : bool := in_range "0" "9" c.
Definition is_hex (c : ascii) : bool :=
  in_range "0" "9" c || in_range "a" "f" c || in_range "A" "F" c.

Definition chr (c : ascii) : re := Cls (fun x => Ascii.eqb x c).
Definition digit : re := Cls is_digit.

(** [r?] (greedy) *)
Definition opt (r : re) : re := Alt r Eps.

(** [r{n}] *)
Fixpoint rep (n : nat) (r : re) : re :=
  match n with 0 => Eps | S n' => Seq r (rep n' r) end.

(** up to [n] further copies of [r], greedy *)
Fixpoint upto (n : nat) (r : re) : re :=
  match n with 0 => Eps | S n' => Alt (Seq r (upto n' r)) Eps end.

(** [r{lo,hi}] *)
Definition rep_range (lo hi : nat) (r : re) : re :=
  Seq (rep lo r) (upto (hi - lo) r).

(** [(25[0-5]|2[0-4]\d|1?\d{1,2})] *)
Definition octet : re :=
  Alt (Seq (chr "2") (Seq (chr "5") (Cls (in_range "0" "5"))))
   (Alt (Seq (chr "2") (Seq (Cls (in_range "0" "4")) digit))
        (Seq (opt (chr "1")) (rep_range 1 2 digit))).

Definition ipv4 : re := Seq octet (rep 3 (Seq (chr ".") octet)).

Definition hex_group : re := rep_range 1 4 (Cls is_hex).

Definition ipv6 : re :=
  Alt (Seq (rep 7 (Seq hex_group (chr ":"))) hex_group)
      (Seq (chr ":") (Seq (chr ":") (chr "1"))).

(** [String.prototype.trim]: the white space and line terminators that an
    8-bit character can hold (tab, LF, VT, FF, CR, space, NBSP). *)
Definition js_ws (c : ascii) : bool :=
  let n := N_of_ascii c in
  (n =? 9)%N || (n =? 10)%N || (n =? 11)%N || (n =? 12)%N || (n =? 13)%N
  || (n =? 32)%N || (n =? 160)%N.

Fixpoint drop_ws (s : list ascii) : list ascii :=
  match s with
  | c :: s' => if js_ws c then drop_ws s' else s
  | [] => []
  end.

Definition trim (s : list ascii) : list ascii := rev (drop_ws (rev (drop_ws s))).

Inductive AddrKind := IPv4 | IPv6 | Invalid.

(** The address check of [handleSearch] on the trimmed input: empty is
    refused first, then [ipv4.test] and [ipv6.test]. *)
Definition classify (text : string) : AddrKind :=
  let ip := trim (list_ascii_of_string text) in
  match ip with
  | [] => Invalid
  | _ :: _ =>
      if test ipv4 ip then IPv4 else if test ipv6 ip then IPv6 else Invalid
  end.

End Validator.

(* ------------------------------------------------------------------ *)
(** ** The component's state and handlers

    [fetchGeoFor] is [async]: its body up to [await fetch(url)] runs at
    dispatch, the rest when the awaited promises settle. A dispatch is
    therefore split into two events: [Dispatch] (clear the error, start
    the request) and [Settle] (the request's fetch and [res.json()]
    settle). In-flight requests carry a tag only so that the model can
    say which one settles; the component itself keeps no such tag. *)

Module Session.

(** How the awaited [fetch(url)] and [res.json()] end. *)
Inductive FetchOutcome :=
| FetchOk (data : GeoRecord)   (* res.ok and the body parsed *)
| FetchNotOk                   (* res.ok false: throw new Error(...) *)
| FetchRejected                (* fetch rejected (network) *)
| JsonRejected.                (* res.json() rejected *)

Record State := mkState {
  geo : option GeoRecord;
  search : string;
  error : string;
  history : list HistoryEntry;
  selectedForDelete : Selection;
  (** what [localStorage[STORAGE_KEY]] holds: [None] after [removeItem],
      otherwise the value last given to [JSON.stringify] *)
  slot : option (list HistoryEntry);
  inflight : list (nat * string);   (* request tag, query *)
  next_tag : nat
}.

Definition FETCH_ERROR : string :=
  "Unable to fetch geolocation for the provided IP.".
Definition EMPTY_ERROR : string := "Please enter an IP address.".
Definition INVALID_ERROR : string :=
  "Please enter a valid IPv4 or IPv6 address.".

Definition set_geo g s :=
  mkState g s.(search) s.(error) s.(history) s.(selectedForDelete) s.(slot)
    s.(inflight) s.(next_tag).
Definition set_search q s :=
  mkState s.(geo) q s.(error) s.(history) s.(selectedForDelete) s.(slot)
    s.(inflight) s.(next_tag).
Definition set_error e s :=
  mkState s.(geo) s.(search) e s.(history) s.(selectedForDelete) s.(slot)
    s.(inflight) s.(next_tag).
Definition set_history h sl s :=
  mkState s.(geo) s.(search) s.(error) h s.(selectedForDelete) sl
    s.(inflight) s.(next_tag).
Definition set_selected sel s :=
  mkState s.(geo) s.(search) s.(error) s.(history) sel s.(slot)
    s.(inflight) s.(next_tag).
Definition set_inflight fl n s :=
  mkState s.(geo) s.(search) s.(error) s.(history) s.(selectedForDelete)
    s.(slot) fl n.

(** [fetchGeoFor(query)] up to the [await]: [setError("")], then the
    request for [query] is in flight. *)
Definition fetchGeoFor (query : string) (s : State) : State :=
  let s1 := set_error "" s in
  set_inflight ((s1.(next_tag), query) :: s1.(inflight)) (S s1.(next_tag)) s1.

Fixpoint find_inflight (tag : nat) (fl : list (nat * string)) : option string :=
  match fl with
  | [] => None
  | (t, q) :: rest => if Nat.eqb t tag then Some q else find_inflight tag rest
  end.

(** The rest of [fetchGeoFor] once the request [tag] settles with [out];
    [when] is [new Date().toISOString()] at that moment. *)
Definition settle (tag : nat) (out : FetchOutcome) (when : string) (s : State)
    : State :=
  match find_inflight tag s.(inflight) with
  | None => s
  | Some query =>
      let s0 := set_inflight
                  (List.filter (fun p => negb (Nat.eqb (fst p) tag)) s.(inflight))
                  s.(next_tag) s in
      match out with
      | FetchOk data =>
          let s1 := set_geo (Some data) s0 in
          if String.eqb query "geo" then s1
          else
            let deduped := record_lookup query data when s1.(history) in
            set_history deduped (Some deduped) s1
      | FetchNotOk | FetchRejected | JsonRejected =>
          set_error FETCH_ERROR s0
      end
  end.

(** [handleSearch] *)
Definition handleSearch (s : State) : State :=
  let s1 := set_error "" s in
  let ip := string_of_list_ascii
              (Validator.trim (list_ascii_of_string s1.(search))) in
  if String.eqb ip "" then set_error EMPTY_ERROR s1
  else
    let l := list_ascii_of_string ip in
    if negb (Validator.test Validator.ipv4 l)
       && negb (Validator.test Validator.ipv6 l)
    then set_error INVALID_ERROR s1
    else fetchGeoFor ip s1.

(** [handleClear] *)
Definition handleClear (s : State) : State :=
  fetchGeoFor "geo" (set_error "" (set_search "" s)).

(** [handleHistoryClick(ip)] *)
Definition handleHistoryClick (ip : string) (s : State) : State :=
  fetchGeoFor ip (set_search ip s).

(** [deleteSelected] *)
Definition deleteSelected (s : State) : State :=
  let remaining := filter_unselected s.(selectedForDelete) 0 s.(history) in
  set_selected ∅ (set_history remaining (Some remaining) s).

(** The Clear All button: [setHistory([]); localStorage.removeItem(KEY)] *)
Definition clearAll (s : State) : State := set_history [] None s.

(** User and network events. *)
Inductive Event :=
| Type_ (text : string)              (* onChange of the input *)
| SearchClick
| ClearClick
| HistoryClick (ip : string)
| Toggle (idx : nat)
| DeleteSelectedClick
| ClearAllClick
| Settle (tag : nat) (out : FetchOutcome) (when : string).

Definition step (s : State) (e : Event) : State :=
  match e with
  | Type_ t => set_search t s
  | SearchClick => handleSearch s
  | ClearClick => handleClear s
  | HistoryClick ip => handleHistoryClick ip s
  | Toggle idx => set_selected (toggleSelect idx s.(selectedForDelete)) s
  | DeleteSelectedClick => deleteSelected s
  | ClearAllClick => clearAll s
  | Settle tag out when => settle tag out when s
  end.

Definition run (s : State) (es : list Event) : State := fold_left step es s.

End Session.

(* ------------------------------------------------------------------ *)
(** ** The map-update effect

<<
  useEffect(() => {
    if (!geo || !mapInstanceRef.current) return;
    const loc = geo.loc || "";
    const parts = loc.split(",").map((v) => parseFloat(v));
    if (parts.length !== 2 || parts.some((n) => Number.isNaN(n))) return;
    const [lat, lon] = parts;
    mapInstanceRef.current.setView([lat, lon], 12, { animate: true });
    ... add or move marker, bindPopup, openPopup,
    ... remove mapInstanceRef.current._precisionCircle if any, add a new one
  }, [geo]);
>> *)

Module MapSync.

(** A value of [parseFloat]. A finite value is kept exactly as the decimal
    [mant * 10^exp10] that was read; rounding to a double is not modelled
    (the effect only tests [Number.isNaN], which rounding never changes). *)
Inductive jsnum :=
| NaN
| Infinity (neg : bool)
| Finite (neg : bool) (mant : N) (exp10 : Z).

Definition is_nan (x : jsnum) : bool :=
  match x with NaN => true | _ => false end.

(** Reads the longest run of decimal digits, accumulating into [acc]. *)
Fixpoint read_digits (s : list ascii) (acc : N) (n : nat)
    : N * nat * list ascii :=
  match s with
  | c :: r =>
      if Validator.is_digit c
      then read_digits r (acc * 10 + (N_of_ascii c - 48))%N (S n)
      else (acc, n, s)
  | [] => (acc, n, [])
  end.

Definition read_sign (s : list ascii) : bool * list ascii :=
  match s with
  | "-"%char :: r => (true, r)
  | "+"%char :: r => (false, r)
  | _ => (false, s)
  end.

Definition starts_with_infinity (s : list ascii) : bool :=
  match s with
  | "I"%char :: "n"%char :: "f"%char :: "i"%char :: "n"%char :: "i"%char
      :: "t"%char :: "y"%char :: _ => true
  | _ => false
  end.

(** [parseFloat]: leading white space is skipped, then the longest prefix
    that is a [StrDecimalLiteral] (sign, [Infinity], or digits with an
    optional fraction and an optional exponent) is read; no such prefix
    gives [NaN]. *)
Definition parseFloat (s : list ascii) : jsnum :=
  let (neg, r) := read_sign (Validator.drop_ws s) in
  if starts_with_infinity r then Infinity neg
  else
    let '(m1, n1, r1) := read_digits r 0%N 0 in
    let '(m, nfrac, r2) :=
      match r1 with
      | "."%char :: r1' =>
          let '(m2, n2, r2) := read_digits r1' m1 0 in (m2, n2, r2)
      | _ => (m1, 0, r1)
      end in
    if Nat.eqb (n1 + nfrac) 0 then NaN
    else
      let e :=
        match r2 with
        | c :: r3 =>
            if Ascii.eqb c "e" || Ascii.eqb c "E" then
              let (eneg, r4) := read_sign r3 in
              let '(ev, ne, _) := read_digits r4 0%N 0 in
              if Nat.eqb ne 0 then 0%Z
              else if eneg then (- Z.of_N ev)%Z else Z.of_N ev
            else 0%Z
        | [] => 0%Z
        end in
      Finite neg m (e - Z.of_nat nfrac)%Z.

(** [String.prototype.split] with a one-character separator. *)
Fixpoint split_on (sep : ascii) (s : list ascii) : list (list ascii) :=
  match s with
  | [] => [[]]
  | c :: r =>
      if Ascii.eqb c sep then [] :: split_on sep r
      else match split_on sep r with
           | x :: xs => (c :: x) :: xs
           | [] => [[c]]
           end
  end.

(** The Leaflet map as far as the effect touches it. *)
Record MapState := mkMap {
  view : jsnum * jsnum * Z;                (* center, zoom *)
  marker : option (jsnum * jsnum);         (* markerRef.current *)
  popup : option (string * bool);          (* bound content, open *)
  circle : option (jsnum * jsnum * Z)      (* _precisionCircle: center, radius *)
}.

(** [L.map(..., { center: [20, 0], zoom: 2 })] *)
Definition initial_map : MapState :=
  mkMap (Finite false 20 0, Finite false 0 0, 2%Z) None None None.

Definition line (label : string) (o : option string) : list string :=
  match o with
  | Some v => if truthy o then ["<strong>" ++ label ++ ":</strong> " ++ v] else []
  | None => []
  end.

Fixpoint join (sep : string) (l : list string) : string :=
  match l with
  | [] => ""
  | [x] => x
  | x :: rest => x ++ sep ++ join sep rest
  end.

Definition popup_content (g : GeoRecord) : string :=
  join "<br/>" (line "IP" (g_ip g) ++ line "City" (g_city g)
                ++ line "Region" (g_region g) ++ line "Country" (g_country g)
                ++ line "Org" (g_org g)).

(** [geo.loc || ""] split at [","] and read with [parseFloat]. *)
Definition loc_parts (g : GeoRecord) : list jsnum :=
  let loc := match g_loc g with Some l => l | None => "" end in
  map parseFloat (split_on "," (list_ascii_of_string loc)).

(** The effect's guard: exactly two parts, none of them [NaN]. *)
Definition loc_usable (g : GeoRecord) : bool :=
  match loc_parts g with
  | [lat; lon] => negb (is_nan lat || is_nan lon)
  | _ => false
  end.

(** One run of the effect; [None] is [mapInstanceRef.current] unset. *)
Definition sync_map (geo : option GeoRecord) (m : option MapState)
    : option MapState :=
  match geo, m with
  | Some g, Some ms =>
      match loc_parts g with
      | [lat; lon] =>
          if is_nan lat || is_nan lon then Some ms
          else Some (mkMap (lat, lon, 12%Z)        (* setView *)
                           (Some (lat, lon))       (* L.marker / setLatLng *)
                           (Some (popup_content g, true))
                           (Some (lat, lon, 500%Z)))  (* removeLayer, L.circle *)
      | _ => Some ms
      end
  | _, _ => m
  end.

End MapSync.

(* ------------------------------------------------------------------ *)
(** ** The history initialiser

<<
  const [history, setHistory] = useState(() => {
    try {
      return JSON.parse(localStorage.getItem(STORAGE_KEY) || "[]");
    } catch {
      return [];
    }
  });
>>
    [JSON.parse] is embedded as a recursive-descent parser of the JSON
    grammar (ECMA-404) over 8-bit characters. *)

Module Store.

Inductive json :=
| JNull
| JBool (b : bool)
| JNumber (lexeme : list ascii)
| JString (units : list N)                (* UTF-16 code units *)
| JArray (elems : list json)
| JObject (members : list (list N * json)).

(** What [localStorage.getItem(STORAGE_KEY)] does. *)
Inductive GetItem :=
| GetThrows                (* e.g. storage access denied *)
| GetNull                  (* no such key *)
| GetString (s : string).

(** The double-quote character (code 34). *)
Notation dquote := (Ascii false true false false false true false false)
  (only parsing).

Definition json_ws (c : ascii) : bool :=
  let n := N_of_ascii c in
  (n =? 32)%N || (n =? 9)%N || (n =? 10)%N || (n =? 13)%N.

Fixpoint skip_ws (s : list ascii) : list ascii :=
  match s with
  | c :: r => if json_ws c then skip_ws r else s
  | [] => []
  end.

Definition hex_val (c : ascii) : option N :=
  let n := N_of_ascii c in
  if Validator.in_range "0" "9" c then Some (n - 48)%N
  else if Validator.in_range "a" "f" c then Some (n - 87)%N
  else if Validator.in_range "A" "F" c then Some (n - 55)%N
  else None.

(** The characters of a string literal after the opening quote, up to
    and including the closing quote. *)
Fixpoint p_string (s : list ascii) (acc : list N)
    : option (list N * list ascii) :=
  match s with
  | [] => None
  | c :: r =>
      if Ascii.eqb c dquote then Some (rev acc, r)
      else if (N_of_ascii c <? 32)%N then None
      else if Ascii.eqb c "\" then
        match r with
        | e :: r' =>
            let simple (u : N) := p_string r' (u :: acc) in
            if Ascii.eqb e dquote then simple 34%N
            else if Ascii.eqb e "\" then simple 92%N
            else if Ascii.eqb e "/" then simple 47%N
            else if Ascii.eqb e "b" then simple 8%N
            else if Ascii.eqb e "f" then simple 12%N
            else if Ascii.eqb e "n" then simple 10%N
            else if Ascii.eqb e "r" then simple 13%N
            else if Ascii.eqb e "t" then simple 9%N
            else if Ascii.eqb e "u" then
              match r' with
              | h1 :: h2 :: h3 :: h4 :: r'' =>
                  match hex_val h1, hex_val h2, hex_val h3, hex_val h4 with
                  | Some a, Some b, Some c', Some d =>
                      p_string r'' ((((a * 16 + b) * 16 + c') * 16 + d)%N :: acc)
                  | _, _, _, _ => None
                  end
              | _ => None
              end
            else None
        | [] => None
        end
      else p_string r (N_of_ascii c :: acc)
  end.

Fixpoint digits1 (s : list ascii) : list ascii * list ascii :=
  match s with
  | c :: r =>
      if Validator.is_digit c then let (d, r') := digits1 r in (c :: d, r')
      else ([], s)
  | [] => ([], [])
  end.

(** [-? (0 | [1-9][0-9]* ) (. [0-9]+)? ([eE] [+-]? [0-9]+)?] *)
Definition p_number (s : list ascii) : option (list ascii * list ascii) :=
  let (sg, r0) := match s with
                  | "-"%char :: r => (["-"%char], r)
                  | _ => ([], s)
                  end in
  let int :=
    match r0 with
    | "0"%char :: r => Some (["0"%char], r)
    | c :: _ => if Validator.is_digit c then Some (digits1 r0) else None
    | [] => None
    end in
  match int with
  | None => None
  | Some (i, r1) =>
      let frac :=
        match r1 with
        | "."%char :: r =>
            match digits1 r with
            | ([], _) => None
            | (d, r') => Some ("."%char :: d, r')
            end
        | _ => Some ([], r1)
        end in
      match frac with
      | None => None
      | Some (f, r2) =>
          let ex :=
            match r2 with
            | e :: r =>
                if Ascii.eqb e "e" || Ascii.eqb e "E" then
                  let (es, r') := match r with
                                  | "+"%char :: r' => (["+"%char], r')
                                  | "-"%char :: r' => (["-"%char], r')
                                  | _ => ([], r)
                                  end in
                  match digits1 r' with
                  | ([], _) => None
                  | (d, r'') => Some ((e :: es ++ d)%list, r'')
                  end
                else Some ([], r2)
            | [] => Some ([], r2)
            end in
          match ex with
          | None => None
          | Some (x, r3) => Some ((sg ++ i ++ f ++ x)%list, r3)
          end
      end
  end.

(** Values, array elements and object members. Every call spends one unit
    of [fuel]; every nested call comes after at least one character has
    been read, so [json_parse] below never runs out of it. *)
Fixpoint p_value (fuel : nat) (s : list ascii) : option (json * list ascii) :=
  match fuel with
  | 0 => None
  | S f =>
      match skip_ws s with
      | "n"%char :: "u"%char :: "l"%char :: "l"%char :: r => Some (JNull, r)
      | "t"%char :: "r"%char :: "u"%char :: "e"%char :: r => Some (JBool true, r)
      | "f"%char :: "a"%char :: "l"%char :: "s"%char :: "e"%char :: r =>
          Some (JBool false, r)
      | dquote :: r =>
          match p_string r [] with
          | Some (u, r') => Some (JString u, r')
          | None => None
          end
      | "["%char :: r =>
          match skip_ws r with
          | "]"%char :: r' => Some (JArray [], r')
          | _ => p_elems f r []
          end
      | "{"%char :: r =>
          match skip_ws r with
          | "}"%char :: r' => Some (JObject [], r')
          | _ => p_members f r []
          end
      | r =>
          match p_number r with
          | Some (lx, r') => Some (JNumber lx, r')
          | None => None
          end
      end
  end
with p_elems (fuel : nat) (s : list ascii) (acc : list json)
    : option (json * list ascii) :=
  match fuel with
  | 0 => None
  | S f =>
      match p_value f s with
      | None => None
      | Some (v, r) =>
          match skip_ws r with
          | ","%char :: r' => p_elems f r' (v :: acc)
          | "]"%char :: r' => Some (JArray (rev (v :: acc)), r')
          | _ => None
          end
      end
  end
with p_members (fuel : nat) (s : list ascii) (acc : list (list N * json))
    : option (json * list ascii) :=
  match fuel with
  | 0 => None
  | S f =>
      match skip_ws s with
      | dquote :: r =>
          match p_string r [] with
          | None => None
          | Some (k, r1) =>
              match skip_ws r1 with
              | ":"%char :: r2 =>
                  match p_value f r2 with
                  | None => None
                  | Some (v, r3) =>
                      match skip_ws r3 with
                      | ","%char :: r4 => p_members f r4 ((k, v) :: acc)
                      | "}"%char :: r4 => Some (JObject (rev ((k, v) :: acc)), r4)
                      | _ => None
                      end
                  end
              | _ => None
              end
          end
      | _ => None
      end
  end.

(** [JSON.parse(text)]: [None] is a thrown [SyntaxError]. *)
Definition json_parse (text : string) : option json :=
  let s := list_ascii_of_string text in
  match p_value (3 * length s + 3) s with
  | Some (v, r) => match skip_ws r with [] => Some v | _ :: _ => None end
  | None => None
  end.

(** The [useState] initialiser of [history]. *)
Definition load (item : GetItem) : json :=
  match item with
  | GetThrows => JArray []
  | GetNull | GetString _ =>
      let text := match item with
                  | GetString s => if String.eqb s "" then "[]" else s
                  | _ => "[]"
                  end in
      match json_parse text with
      | Some v => v
      | None => JArray []
      end
  end.

End Store.

(* ------------------------------------------------------------------ *)
(** ** Readings of the address forms, to compare [classify] with *)

Module AddrForms.
Import Validator.
Local Open Scope list_scope.

(** Decimal value of a digit string. *)
Definition dval (p : list ascii) : N :=
  fold_left (fun acc c => (acc * 10 + (N_of_ascii c - 48))%N) p 0%N.

(** A dotted quad of decimal numbers in [0,255], each read by standard
    decimal parsing (leading zeros allowed, any number of digits). *)
Definition dec_octet (p : list ascii) : Prop :=
  p <> [] /\ forallb is_digit p = true /\ (dval p <= 255)%N.

Definition dotted_quad (P : list ascii -> Prop) (s : list ascii) : Prop :=
  exists a b c d, s = a ++ "."%char :: b ++ "."%char :: c ++ "."%char :: d
    /\ P a /\ P b /\ P c /\ P d.

(** The octets that [25[0-5]|2[0-4]\d|1?\d{1,2}] accepts: one to three
    digits of value at most 255, a three-digit one not starting with 0. *)
Definition octet_ok (p : list ascii) : bool :=
  forallb is_digit p && (1 <=? length p)%nat && (length p <=? 3)%nat
  && (dval p <=? 255)%N
  && negb (match p with c :: _ :: _ :: _ => Ascii.eqb c "0" | _ => false end).

(** [octet] unrolled: the prefixes of length one, two and three that
    [octet_ok] accepts, each followed by the continuation. *)
Definition oct_split (s : list ascii) (k : list ascii -> bool) : bool :=
  match s with
  | [] => false
  | c1 :: s1 =>
      (octet_ok [c1] && k s1)
      || match s1 with
         | [] => false
         | c2 :: s2 =>
             (octet_ok [c1; c2] && k s2)
             || match s2 with
                | [] => false
                | c3 :: s3 => octet_ok [c1; c2; c3] && k s3
                end
         end
  end.

(** One to four hex digits. *)
Definition hex_ok (p : list ascii) : Prop :=
  (1 <= length p <= 4)%nat /\ forallb is_hex p = true.

(** Full IPv6 form: seven groups each followed by [:], then an eighth. *)
Definition v6_full (s : list ascii) : Prop :=
  exists gs g, length gs = 7%nat /\ Forall hex_ok gs /\ hex_ok g
    /\ s = concat (map (fun x => x ++ [":"%char]) gs) ++ g.

Definition loopback : list ascii := [":"%char; ":"%char; "1"%char].

(** [/^r$/.test] of a regex denotes the language [P]. *)
Definition denotes (r : re) (P : list ascii -> Prop) : Prop :=
  forall s k, mt r s k = true <-> exists x q, s = x ++ q /\ P x /\ k q = true.

End AddrForms.

(* ------------------------------------------------------------------ *)
(** ** Sample inputs *)

Module Samples.

Definition geoA : GeoRecord :=
  mkGeo (Some "1.1.1.1") (Some "Brisbane") (Some "Queensland") (Some "AU")
    (Some "-27.4820,153.0136") (Some "AS13335 Cloudflare, Inc.").
Definition geoB : GeoRecord :=
  mkGeo (Some "8.8.8.8") (Some "Mountain View") (Some "California")
    (Some "US") (Some "37.4056,-122.0775") (Some "AS15169 Google LLC").
Definition geo_pinned : GeoRecord :=
  mkGeo (Some "9.9.9.9") None None None (Some "12.3,-45.6") None.
Definition geo_no_loc : GeoRecord :=
  mkGeo (Some "10.0.0.1") None None None None None.

Definition entry0 : HistoryEntry := mkEntry "1.1.1.1" geoA "2026-10-01T10:00:00.000Z".
Definition entry1 : HistoryEntry := mkEntry "8.8.8.8" geoB "2026-10-01T10:01:00.000Z".
Definition entry2 : HistoryEntry := mkEntry "9.9.9.9" geo_pinned "2026-10-01T10:02:00.000Z".

(** Right after mount, before the self-lookup settles. *)
Definition state0 : Session.State :=
  Session.mkState None "" "" [] ∅ None [] 0.

Definition state3 : Session.State :=
  Session.mkState (Some geoA) "" "" [entry0; entry1; entry2] ∅
    (Some [entry0; entry1; entry2]) [] 0.

End Samples.

(* ------------------------------------------------------------------ *)
(** ** The request URL of [fetchGeoFor]

<<
    let url;
    if (query === "geo") url = "https://ipinfo.io/geo";
    else url = `https://ipinfo.io/${query}/geo`;
>> *)

Module Requests.

Definition fetch_url (query : string) : string :=
  if String.eqb query "geo" then "https://ipinfo.io/geo"
  else "https://ipinfo.io/" ++ query ++ "/geo".

(** The characters of a request path segment that end it or start a
    query or fragment. *)
Definition url_delim (c : ascii) : bool :=
  Ascii.eqb c "/" || Ascii.eqb c "?" || Ascii.eqb c "#".

(** A text free of those characters. *)
Definition no_delim (l : list ascii) : Prop :=
  forallb (fun c => negb (url_delim c)) l = true.

End Requests.

(* ------------------------------------------------------------------ *)
(** ** The history list rendering

<<
  {history.map((h, idx) => (
    <li key={h.ip + idx} ...>
      ...
      {h.data.city
        ? `${h.data.city}, ${h.data.region}, ${h.data.country}`
        : h.data.org || ""}
>> *)

Module Render.

(** A field in a template literal: [undefined] prints as ["undefined"]. *)
Definition template_field (o : option string) : string :=
  match o with Some v => v | None => "undefined" end.

Definition history_summary (g : GeoRecord) : string :=
  if truthy (g_city g)
  then template_field (g_city g) ++ ", " ++ template_field (g_region g)
       ++ ", " ++ template_field (g_country g)
  else match g_org g with
       | Some o => if truthy (g_org g) then o else ""
       | None => ""
       end.

(** [String(n)] for a non-negative integer index: its decimal digits. *)
Fixpoint dec_aux (fuel n : nat) (acc : string) : string :=
  match fuel with
  | 0 => acc
  | S f =>
      let acc' := String (ascii_of_nat (48 + n mod 10)) acc in
      if Nat.ltb n 10 then acc' else dec_aux f (n / 10) acc'
  end.

Definition nat_to_dec (n : nat) : string := dec_aux (S n) n "".

(** [h.ip + idx]: string concatenation with the index's decimal form. *)
Definition row_key (h : HistoryEntry) (idx : nat) : string :=
  h_ip h ++ nat_to_dec idx.

(** The keys of the rendered rows, in order. *)
Definition row_keys (hist : list HistoryEntry) : list string :=
  map (fun p => row_key (snd p) (fst p)) (combine (seq 0 (length hist)) hist).

End Render.

(* ------------------------------------------------------------------ *)
(** ** What the history updater and [deleteSelected] write to storage

<<
  localStorage.setItem(STORAGE_KEY, JSON.stringify(deduped));
  localStorage.setItem(STORAGE_KEY, JSON.stringify(remaining));
>>
    [JSON.stringify] without indentation. An object is given by its own
    enumerable properties in enumeration order, which for the objects the
    component builds (no integer-like keys) is their creation order. *)

Module Persist.
Import Store.
Local Open Scope list_scope.

(** A lowercase hex digit, as [JSON.stringify]'s [\u00XX] escapes use. *)
Definition hex_digit (n : N) : ascii :=
  ascii_of_N (if (n <? 10)%N then 48 + n else 87 + n)%N.

(** QuoteJSONString on one code unit below 256. *)
Definition escape_unit (u : N) : list ascii :=
  if (u =? 34)%N then ["\"%char; dquote]
  else if (u =? 92)%N then ["\"%char; "\"%char]
  else if (u =? 8)%N then ["\"%char; "b"%char]
  else if (u =? 12)%N then ["\"%char; "f"%char]
  else if (u =? 10)%N then ["\"%char; "n"%char]
  else if (u =? 13)%N then ["\"%char; "r"%char]
  else if (u =? 9)%N then ["\"%char; "t"%char]
  else if (u <? 32)%N then
    ["\"%char; "u"%char; "0"%char; "0"%char;
     hex_digit (u / 16); hex_digit (u mod 16)]
  else [ascii_of_N u].

Definition quote (u : list N) : list ascii :=
  dquote :: concat (map escape_unit u) ++ [dquote].

(** [Array.prototype.join(",")] on already serialised parts. *)
Fixpoint join_comma (xs : list (list ascii)) : list ascii :=
  match xs with
  | [] => []
  | [x] => x
  | x :: rest => x ++ ","%char :: join_comma rest
  end.

(** [JSON.stringify(v)]; a number is printed as its lexeme, which is
    what [JSON.stringify] prints for a lexeme in canonical form. *)
Fixpoint stringify (v : json) : list ascii :=
  match v with
  | JNull => list_ascii_of_string "null"
  | JBool true => list_ascii_of_string "true"
  | JBool false => list_ascii_of_string "false"
  | JNumber lx => lx
  | JString u => quote u
  | JArray es => "["%char :: join_comma (map stringify es) ++ ["]"%char]
  | JObject ms =>
      "{"%char
        :: join_comma (map (fun '(k, x) => quote k ++ ":"%char :: stringify x) ms)
        ++ ["}"%char]
  end.

Definition stringify_text (v : json) : string :=
  string_of_list_ascii (stringify v).

(** The UTF-16 code units of an 8-bit string. *)
Definition units (s : string) : list N :=
  map N_of_ascii (list_ascii_of_string s).

(** A present field of the provider's answer; an absent one
    ([undefined]) is left out by [JSON.stringify]. *)
Definition opt_field (k : string) (o : option string)
    : list (list N * json) :=
  match o with
  | Some v => [(units k, JString (units v))]
  | None => []
  end.

Definition geo_json (g : GeoRecord) : json :=
  JObject (opt_field "ip" (g_ip g) ++ opt_field "city" (g_city g)
           ++ opt_field "region" (g_region g)
           ++ opt_field "country" (g_country g)
           ++ opt_field "loc" (g_loc g) ++ opt_field "org" (g_org g)).

(** [{ ip: query, data, when }] *)
Definition entry_json (h : HistoryEntry) : json :=
  JObject [(units "ip", JString (units (h_ip h)));
           (units "data", geo_json (h_data h));
           (units "when", JString (units (h_when h)))].

Definition history_json (hist : list HistoryEntry) : json :=
  JArray (map entry_json hist).

(** What [localStorage.getItem(STORAGE_KEY)] returns in a state. *)
Definition storage_item (s : Session.State) : GetItem :=
  match Session.slot s with
  | None => GetNull
  | Some hist => GetString (stringify_text (history_json hist))
  end.

(** Values without numbers whose strings hold code units below 256. *)
Fixpoint printable (v : json) : bool :=
  match v with
  | JNull | JBool _ => true
  | JNumber _ => false
  | JString u => forallb (fun x => (x <? 256)%N) u
  | JArray es => forallb printable es
  | JObject ms =>
      forallb (fun '(k, x) => forallb (fun y => (y <? 256)%N) k && printable x) ms
  end.

(** Nesting measure: the fuel [p_value] spends on a value. *)
Fixpoint jsize (v : json) : nat :=
  match v with
  | JArray es => S (list_sum (map (fun x => S (jsize x)) es))
  | JObject ms => S (list_sum (map (fun '(_, x) => S (jsize x)) ms))
  | _ => 1
  end.

(** The storage slot agrees with the in-memory history. *)
Definition synced (s : Session.State) : Prop :=
  Session.slot s = Some (Session.history s)
  \/ (Session.slot s = None /\ Session.history s = []).

End Persist.

(** Induction over JSON values with the hypotheses on the elements of
    arrays and objects, and the statement that a serialised value is read
    back by [p_value]. *)
Module JsonFacts.
Import Store Persist.
Local Open Scope list_scope.

Section JsonInd.
Variable P : json -> Prop.
Hypothesis HNull : P JNull.
Hypothesis HBool : forall b, P (JBool b).
Hypothesis HNum : forall lx, P (JNumber lx).
Hypothesis HStr : forall u, P (JString u).
Hypothesis HArr : forall es, Forall P es -> P (JArray es).
Hypothesis HObj : forall ms, Forall (fun m => P (snd m)) ms -> P (JObject ms).

Fixpoint json_ind' (v : json) : P v :=
  match v with
  | JNull => HNull
  | JBool b => HBool b
  | JNumber lx => HNum lx
  | JString u => HStr u
  | JArray es =>
      HArr es ((fix go (l : list json) : Forall P l :=
                  match l with
                  | [] => @List.Forall_nil json P
                  | x :: r => @List.Forall_cons _ _ x _ (json_ind' x) (go r)
                  end) es)
  | JObject ms =>
      HObj ms ((fix go (l : list (list N * json))
                  : Forall (fun m => P (snd m)) l :=
                  match l with
                  | [] => @List.Forall_nil _ _
                  | (k, x) :: r => @List.Forall_cons _ _ (k, x) _ (json_ind' x) (go r)
                  end) ms)
  end.
End JsonInd.

(** The first character of a serialised value. *)
Definition starts_value (r : list ascii) : Prop :=
  exists t, r = "n"%char :: t \/ r = "t"%char :: t \/ r = "f"%char :: t
            \/ r = dquote :: t \/ r = "["%char :: t \/ r = "{"%char :: t.

Definition parses_back (v : json) : Prop :=
  printable v = true ->
  forall n rest, jsize v <= n -> p_value n (stringify v ++ rest) = Some (v, rest).

End JsonFacts.

(* ------------------------------------------------------------------ *)
(** ** The caller: routes of App.jsx and the Logout button

<<
  const token = localStorage.getItem("authToken");
  <Route path="/" element={<Navigate to={token ? "/home" : "/login"} replace />} />
  <Route path="/login" element={<LoginScreen />} />
  <Route element={<ProtectedRoute />}>
    <Route path="/home" element={<HomeScreen />} />
  </Route>
  <Route path="*" element={<Navigate to="/" replace />} />

  const ProtectedRoute = () => {
    const token = localStorage.getItem("authToken");
    return token ? <Outlet /> : <Navigate to="/login" replace />;
  };
>>
    [token] of [App] is read once, when [App] renders; the one of
    [ProtectedRoute] when the protected route renders. A path matches a
    route as React Router 6 matches it: case-insensitively, with any
    number of trailing slashes; the percent-decoding of the pathname that
    React Router 6.4 and later apply first is modelled by [route]. *)

Module Routing.
Local Open Scope list_scope.

Definition Storage := gmap string string.

Definition AUTH_KEY : string := "authToken".
Definition STORAGE_KEY : string := "ipHistory_v1".

Inductive Screen := LoginScreen | HomeScreen.

Inductive Element :=
| Render (sc : Screen)
| Navigate (to : string).

(** ASCII case folding of the [i] flag. *)
Definition lower (c : ascii) : ascii :=
  if Validator.in_range "A" "Z" c then ascii_of_N (N_of_ascii c + 32) else c.

(** [^pat\/*$] with the [i] flag, for a lowercase [pat]. *)
Definition matches (pat path : list ascii) : bool :=
  let n := length pat in
  if List.list_eq_dec Ascii.ascii_dec (map lower (firstn n path)) pat
  then forallb (fun c => Ascii.eqb c "/") (skipn n path)
  else false.

Definition element_for (app_token : option string) (st : Storage)
    (path : string) : Element :=
  let p := list_ascii_of_string path in
  if matches (list_ascii_of_string "/") p then
    Navigate (if truthy app_token then "/home" else "/login")
  else if matches (list_ascii_of_string "/login") p then Render LoginScreen
  else if matches (list_ascii_of_string "/home") p then
    if truthy (st !! AUTH_KEY) then Render HomeScreen else Navigate "/login"
  else Navigate "/".

(** Following [<Navigate replace />] until a screen renders; [None] when
    [fuel] redirects do not reach one. *)
Fixpoint resolve (fuel : nat) (app_token : option string) (st : Storage)
    (path : string) : option Screen :=
  match fuel with
  | 0 => None
  | S f =>
      match element_for app_token st path with
      | Render sc => Some sc
      | Navigate to => resolve f app_token st to
      end
  end.

(** React Router 6.4 and later match the pathname after decoding it
    ([decodePath] in [matchRoutes]: percent-escapes are decoded before the
    route patterns are tried); [decode] is that decoding, the identity for
    the releases 6.0 to 6.3. A location reached through [<Navigate />] is
    decoded as well. [resolve] is [route] without decoding. *)
Fixpoint route (decode : string -> string) (fuel : nat)
    (app_token : option string) (st : Storage) (path : string) : option Screen :=
  match fuel with
  | 0 => None
  | S f =>
      match element_for app_token st (decode path) with
      | Render sc => Some sc
      | Navigate to => route decode f app_token st to
      end
  end.

(** The Logout button: [localStorage.removeItem("authToken")], then
    [window.location.href = "/login"] loads the app afresh. *)
Definition logout (st : Storage) : Storage := delete AUTH_KEY st.

(** The history initialiser's view of a storage. *)
Definition history_item (st : Storage) : Store.GetItem :=
  match st !! STORAGE_KEY with
  | Some v => Store.GetString v
  | None => Store.GetNull
  end.

End Routing.

(* ------------------------------------------------------------------ *)
(** ** More sample inputs *)

Module Samples2.
Import Samples.

(** A record with a city but no region. *)
Definition geo_partial : GeoRecord :=
  mkGeo (Some "5.6.7.8") (Some "Lyon") None (Some "FR") None None.

(** Typing [ip], pressing Search and the request [tag] succeeding. *)
Fixpoint lookup_events (ips : list string) (tag : nat) : list Session.Event :=
  match ips with
  | [] => []
  | ip :: rest =>
      [Session.Type_ ip; Session.SearchClick;
       Session.Settle tag (Session.FetchOk geoA) "2026-10-01T11:00:00.000Z"]%list
      ++ lookup_events rest (S tag)
  end.

(** Eleven distinct addresses, "1.1.1.1" first and "1.1.1.11" last. *)
Definition eleven_ips : list string :=
  ["1.1.1.1"; "2.2.2.2"; "3.3.3.3"; "4.4.4.4"; "5.5.5.5"; "6.6.6.6";
   "7.7.7.7"; "8.8.8.8"; "9.9.9.9"; "10.10.10.10"; "1.1.1.11"].

(** A storage of a logged-in user with a saved history. *)
Definition storage_in : Routing.Storage :=
  <[Routing.AUTH_KEY := "token-123"]>
    (<[Routing.STORAGE_KEY := "[]"]> (∅ : Routing.Storage)).

(** The value of a hex digit. *)
Definition hex_value (c : ascii) : N :=
  if Validator.in_range "0" "9" c then N_of_ascii c - 48
  else if Validator.in_range "a" "f" c then N_of_ascii c - 87
  else N_of_ascii c - 55.

(** Decoding of the [%XX] escapes of ASCII characters, as
    [decodeURIComponent] decodes them; other text is kept. *)
Fixpoint decode_ascii_escapes (l : list ascii) : list ascii :=
  match l with
  | [] => []
  | c :: t =>
      if Ascii.eqb c "%" then
        match t with
        | h1 :: h2 :: r =>
            if Validator.is_hex h1 && Validator.is_hex h2
               && Validator.in_range "0" "7" h1
            then ascii_of_N (hex_value h1 * 16 + hex_value h2)
                   :: decode_ascii_escapes r
            else c :: decode_ascii_escapes t
        | _ => c :: decode_ascii_escapes t
        end
      else c :: decode_ascii_escapes t
  end.

Definition decode_sample (path : string) : string :=
  string_of_list_ascii (decode_ascii_escapes (list_ascii_of_string path)).

(** [state3] with indices 7, 0 and 2 ticked, in that order. *)
Definition state3_ticked : Session.State :=
  Session.run state3 [Session.Toggle 7; Session.Toggle 0; Session.Toggle 2].

(** A storage after logout with nothing saved. *)
Definition storage_out : Routing.Storage := ∅.

End Samples2.

(* ================================================================== *)
(** * Properties *)

(* ------------------------------------------------------------------ *)
(** ** History store *)

Section HistoryProps.

Lemma record_lookup_eq (q : string) (d : GeoRecord) (w : string)
    (prev : list HistoryEntry) :
  record_lookup q d w prev
  = mkEntry q d w
      :: firstn 49 (List.filter (fun h => negb (String.eqb (h_ip h) q)) prev).
Proof. reflexivity. Qed.

Lemma not_in_filtered_ips (q : string) (l : list HistoryEntry) :
  ~ In q (map h_ip (List.filter (fun h => negb (String.eqb (h_ip h) q)) l)).
Proof.
  induction l as [|h l IH]; simpl; [tauto|].
  destruct (String.eqb_spec (h_ip h) q) as [E|E]; simpl; [exact IH|].
  intros [H|H]; [congruence | exact (IH H)].
Qed.

Lemma NoDup_map_filter {A B} (f : A -> B) (p : A -> bool) (l : list A) :
  List.NoDup (map f l) -> List.NoDup (map f (List.filter p l)).
Proof.
  induction l as [|x l IH]; simpl; intros H; [constructor|].
  inversion H as [|? ? Hx Hl]; subst.
  destruct (p x); simpl; [|auto].
  constructor; [|auto].
  intros Hin. apply Hx. apply in_map_iff in Hin as (y & Hy & Hin).
  apply filter_In in Hin as [Hin _]. rewrite <- Hy. apply in_map, Hin.
Qed.

Lemma in_firstn {A} (n : nat) (l : list A) (x : A) :
  In x (firstn n l) -> In x l.
Proof. intros H. rewrite <- (firstn_skipn n l). apply in_or_app. now left. Qed.

Lemma NoDup_map_firstn {A B} (f : A -> B) (n : nat) (l : list A) :
  List.NoDup (map f l) -> List.NoDup (map f (firstn n l)).
Proof.
  revert l; induction n as [|n IH]; intros [|x l] H; simpl;
    [constructor | constructor | constructor |].
  inversion H as [|? ? Hx Hl]; subst. constructor; [|auto].
  intros Hin. apply Hx. apply in_map_iff in Hin as (y & Hy & Hin).
  rewrite <- Hy. apply in_map. exact (in_firstn _ _ _ Hin).
Qed.

Lemma filter_firstn_nil {A} (p : A -> bool) (n : nat) (l : list A) :
  List.filter p l = [] -> List.filter p (firstn n l) = [].
Proof.
  revert l; induction n as [|n IH]; intros [|x l] H; simpl in *; auto.
  destruct (p x); [discriminate | auto].
Qed.

Lemma filter_same_ip_removed (q : string) (l : list HistoryEntry) :
  List.filter (fun h => String.eqb (h_ip h) q)
    (List.filter (fun h => negb (String.eqb (h_ip h) q)) l) = [].
Proof.
  induction l as [|h l IH]; simpl; auto.
  destruct (String.eqb (h_ip h) q) eqn:E; simpl; [auto|].
  rewrite E. exact IH.
Qed.

Lemma record_lookup_inv (q : string) (d : GeoRecord) (w : string)
    (prev : list HistoryEntry) :
  List.NoDup (map h_ip prev) ->
  List.NoDup (map h_ip (record_lookup q d w prev))
  /\ length (record_lookup q d w prev) <= 50.
Proof.
  intros H. unfold record_lookup. split.
  - apply NoDup_map_firstn. simpl. constructor.
    + apply not_in_filtered_ips.
    + apply NoDup_map_filter, H.
  - rewrite length_firstn. unfold HISTORY_CAP. lia.
Qed.

Lemma record_all_inv (calls : list (string * GeoRecord * string))
    (prev : list HistoryEntry) :
  List.NoDup (map h_ip prev) -> length prev <= 50 ->
  List.NoDup (map h_ip (record_all calls prev))
  /\ length (record_all calls prev) <= 50.
Proof.
  revert prev; induction calls as [|[[q d] w] calls IH]; intros prev Hn Hl;
    simpl; [auto|].
  destruct (record_lookup_inv q d w prev Hn). auto.
Qed.

End HistoryProps.

(** C1. Starting from an empty history, after any sequence of history
    updates (the [setHistory] updater of [fetchGeoFor]) no two entries
    share an [ip] (exact string equality) and there are at most 50. *)
Theorem history_invariant (calls : list (string * GeoRecord * string)) :
  List.NoDup (map h_ip (record_all calls []))
  /\ length (record_all calls []) <= 50.
Proof. apply record_all_inv; simpl; [constructor | lia]. Qed.

(** C4. Recording a lookup for [q] puts the new entry (its data and
    timestamp) at index 0, leaves exactly one entry with ip [q], and
    keeps the other entries in their previous relative order (a prefix
    of the old sequence with the [q] entries taken out). This holds for
    every previous sequence, in particular one that already has [q]. *)
Theorem record_lookup_dedup_front (q : string) (d : GeoRecord) (w : string)
    (prev : list HistoryEntry) :
  record_lookup q d w prev
    = mkEntry q d w
        :: firstn 49 (List.filter (fun h => negb (String.eqb (h_ip h) q)) prev)
  /\ List.filter (fun h => String.eqb (h_ip h) q) (record_lookup q d w prev)
     = [mkEntry q d w].
Proof.
  split; [apply record_lookup_eq|].
  rewrite record_lookup_eq. simpl. rewrite String.eqb_refl. f_equal.
  apply filter_firstn_nil, filter_same_ip_removed.
Qed.

(* ------------------------------------------------------------------ *)
(** ** Deleting selected entries *)

(** C9. On any three-entry history whose ticked indices are 0 and 2
    (index 1 unticked; marks at indices past the end, whatever they are,
    delete nothing), "Delete Selected" leaves only the former index-1
    entry and an empty selection. *)
Theorem delete_selected_0_2 (s : Session.State) (h0 h1 h2 : HistoryEntry)
    (Hh : Session.history s = [h0; h1; h2])
    (Hsel : sel_get (Session.selectedForDelete s) 0 = true
            /\ sel_get (Session.selectedForDelete s) 1 = false
            /\ sel_get (Session.selectedForDelete s) 2 = true) :
  let s' := Session.step s Session.DeleteSelectedClick in
  Session.history s' = [h1] /\ Session.selectedForDelete s' = ∅.
Proof.
  destruct s as [g se er hi sel sl fl n]; simpl in *; subst hi.
  destruct Hsel as (H0 & H1 & H2).
  unfold Session.deleteSelected; simpl. rewrite H0, H1, H2.
  split; reflexivity.
Qed.

Lemma delete_selected_0_2_witness :
  Session.history Samples2.state3_ticked
    = [Samples.entry0; Samples.entry1; Samples.entry2]
  /\ sel_get (Session.selectedForDelete Samples2.state3_ticked) 7 = true
  /\ Session.history (Session.step Samples2.state3_ticked Session.DeleteSelectedClick)
     = [Samples.entry1].
Proof.
  split; [reflexivity|]. split; [vm_compute; reflexivity|].
  exact (proj1 (delete_selected_0_2 Samples2.state3_ticked Samples.entry0
                  Samples.entry1 Samples.entry2 eq_refl
                  ltac:(vm_compute; repeat split))).
Defined.

(* ------------------------------------------------------------------ *)
(** ** Dispatch and settlement of lookups *)

Section SessionProps.
Import Session.

Lemma fetchGeoFor_inflight (q : string) (s : State) :
  inflight (fetchGeoFor q s) = (next_tag s, q) :: inflight s
  /\ next_tag (fetchGeoFor q s) = S (next_tag s)
  /\ error (fetchGeoFor q s) = ""
  /\ geo (fetchGeoFor q s) = geo s
  /\ history (fetchGeoFor q s) = history s
  /\ selectedForDelete (fetchGeoFor q s) = selectedForDelete s.
Proof. destruct s; repeat split. Qed.

Lemma find_inflight_filter (t tag : nat) (fl : list (nat * string)) :
  t <> tag ->
  find_inflight t (List.filter (fun p => negb (Nat.eqb (fst p) tag)) fl)
  = find_inflight t fl.
Proof.
  intros Hne. induction fl as [|[t' q] fl IH]; simpl; [reflexivity|].
  destruct (Nat.eqb_spec t' tag) as [->|Hn]; simpl.
  - rewrite IH. destruct (Nat.eqb_spec tag t); [congruence | reflexivity].
  - rewrite IH. reflexivity.
Qed.

Lemma find_inflight_cons (tag t : nat) (q : string) (fl : list (nat * string)) :
  find_inflight tag ((t, q) :: fl)
  = if Nat.eqb t tag then Some q else find_inflight tag fl.
Proof. reflexivity. Qed.

Lemma settle_ok (tag : nat) (q : string) (d : GeoRecord) (w : string)
    (s : State) :
  find_inflight tag (inflight s) = Some q ->
  geo (settle tag (FetchOk d) w s) = Some d
  /\ error (settle tag (FetchOk d) w s) = error s
  /\ selectedForDelete (settle tag (FetchOk d) w s) = selectedForDelete s
  /\ history (settle tag (FetchOk d) w s)
     = (if String.eqb q "geo" then history s
        else record_lookup q d w (history s))
  /\ find_inflight tag (inflight (settle tag (FetchOk d) w s)) = None
  /\ (forall t, t <> tag ->
        find_inflight t (inflight (settle tag (FetchOk d) w s))
        = find_inflight t (inflight s)).
Proof.
  intros Hf. unfold settle. rewrite Hf.
  assert (Hgone : forall fl : list (nat * string),
    find_inflight tag (List.filter (fun p => negb (Nat.eqb (fst p) tag)) fl)
    = None).
  { induction fl as [|[t' q'] fl IH]; simpl; [reflexivity|].
    destruct (Nat.eqb_spec t' tag) as [->|Hn]; simpl; [exact IH|].
    destruct (Nat.eqb_spec t' tag); [congruence | exact IH]. }
  destruct (String.eqb q "geo"); destruct s; simpl; repeat split;
    try apply Hgone; intros t Ht; apply find_inflight_filter, Ht.
Qed.

Lemma settle_fail (tag : nat) (q : string) (out : FetchOutcome) (w : string)
    (s : State) :
  find_inflight tag (inflight s) = Some q ->
  (forall d, out <> FetchOk d) ->
  geo (settle tag out w s) = geo s
  /\ error (settle tag out w s) = FETCH_ERROR
  /\ selectedForDelete (settle tag out w s) = selectedForDelete s.
Proof.
  intros Hf Hout. unfold settle. rewrite Hf.
  destruct out as [d| | |]; [exfalso; exact (Hout d eq_refl)| | |];
    destruct s; repeat split.
Qed.

Lemma settle_keeps_selection (tag : nat) (out : FetchOutcome) (w : string)
    (s : State) :
  selectedForDelete (settle tag out w s) = selectedForDelete s.
Proof.
  unfold settle. destruct (find_inflight tag (inflight s)) as [q|]; [|reflexivity].
  destruct out; [destruct (String.eqb q "geo")| | |]; destruct s; reflexivity.
Qed.

End SessionProps.

(** C2, as the code has it. Every successful response replaces the
    current [GeoRecord] when it arrives, whichever dispatch is newer:
    dispatching A then B, with B's response first and A's after it, leaves
    A's result (the last response wins; nothing discards stale ones). *)
Theorem last_response_wins (s : Session.State) (qa qb : string)
    (da db : GeoRecord) (wa wb : string) :
  let ta := Session.next_tag s in
  let s1 := Session.fetchGeoFor qb (Session.fetchGeoFor qa s) in
  let s2 := Session.settle (S ta) (Session.FetchOk db) wb s1 in
  let s3 := Session.settle ta (Session.FetchOk da) wa s2 in
  Session.geo s2 = Some db /\ Session.geo s3 = Some da.
Proof.
  intros ta s1 s2 s3.
  destruct (fetchGeoFor_inflight qa s) as (Ha1 & Ha2 & _).
  destruct (fetchGeoFor_inflight qb (Session.fetchGeoFor qa s)) as (Hb1 & Hb2 & _).
  assert (HfB : Session.find_inflight (S ta) (Session.inflight s1) = Some qb).
  { unfold s1. rewrite Hb1, Ha2, find_inflight_cons, Nat.eqb_refl. reflexivity. }
  assert (HfA : Session.find_inflight ta (Session.inflight s1) = Some qa).
  { unfold s1. rewrite Hb1, Ha2, Ha1, !find_inflight_cons.
    destruct (Nat.eqb_spec (S (Session.next_tag s)) ta); [unfold ta in *; lia|].
    unfold ta. rewrite Nat.eqb_refl. reflexivity. }
  destruct (settle_ok (S ta) qb db wb s1 HfB) as (Hg2 & _ & _ & _ & _ & Hother).
  split; [exact Hg2|].
  assert (HfA2 : Session.find_inflight ta (Session.inflight s2) = Some qa).
  { unfold s2. rewrite Hother by lia. exact HfA. }
  exact (proj1 (settle_ok ta qa da wa s2 HfA2)).
Qed.

(** C2 as stated fails: searching 1.1.1.1 and then 8.8.8.8, with the
    8.8.8.8 response arriving first, ends on the 1.1.1.1 result. *)
Lemma last_dispatch_wins_fails :
  let s := Session.run Samples.state0
             [Session.Type_ "1.1.1.1"; Session.SearchClick;
              Session.Type_ "8.8.8.8"; Session.SearchClick;
              Session.Settle 1 (Session.FetchOk Samples.geoB) "t1";
              Session.Settle 0 (Session.FetchOk Samples.geoA) "t2"] in
  Session.geo s = Some Samples.geoA /\ Session.geo s <> Some Samples.geoB.
Proof. vm_compute. split; [reflexivity | discriminate]. Qed.

(** C5, as the code has it. "Delete Selected" empties the selection;
    a lookup's history update ([settle]) leaves the selection as it was. *)
Theorem selection_cleared_by_delete_only (s : Session.State) :
  Session.selectedForDelete (Session.deleteSelected s) = ∅
  /\ (forall tag out w,
        Session.selectedForDelete (Session.settle tag out w s)
        = Session.selectedForDelete s).
Proof.
  split; [destruct s; reflexivity|].
  intros tag out w. apply settle_keeps_selection.
Qed.

(** C5 as stated fails: index 0 ticked, then a successful search for
    4.4.4.4 replaces the history while index 0 stays ticked. *)
Lemma selection_kept_after_lookup :
  let s1 := Session.run Samples.state3 [Session.Toggle 0] in
  let s2 := Session.run s1
              [Session.Type_ "4.4.4.4"; Session.SearchClick;
               Session.Settle 0 (Session.FetchOk Samples.geoB) "t"] in
  Session.history s2 <> Session.history s1
  /\ Session.selectedForDelete s2 = Session.selectedForDelete s1
  /\ Session.selectedForDelete s2 <> ∅.
Proof. vm_compute. split; [discriminate | split; [reflexivity | discriminate]]. Qed.

(** C7. When an in-flight lookup fails (response not ok, fetch rejected,
    or body not JSON) the current [GeoRecord] is left as it was and the
    error message is set; the next dispatch clears the error, and its
    success leaves it cleared and sets the [GeoRecord]. *)
Theorem lookup_failure_handling (s : Session.State) (tag : nat) (q : string)
    (out : Session.FetchOutcome) (w : string)
    (Hf : Session.find_inflight tag (Session.inflight s) = Some q)
    (Hout : forall d, out <> Session.FetchOk d) :
  let sf := Session.settle tag out w s in
  Session.geo sf = Session.geo s
  /\ Session.error sf = Session.FETCH_ERROR
  /\ Session.FETCH_ERROR <> ""
  /\ (forall q' d w',
        let s1 := Session.fetchGeoFor q' sf in
        let s2 := Session.settle (Session.next_tag sf) (Session.FetchOk d) w' s1 in
        Session.error s1 = "" /\ Session.error s2 = "" /\ Session.geo s2 = Some d).
Proof.
  intros sf. destruct (settle_fail tag q out w s Hf Hout) as (Hg & He & _).
  split; [exact Hg|]. split; [exact He|]. split; [discriminate|].
  intros q' d w' s1 s2.
  destruct (fetchGeoFor_inflight q' sf) as (Hi & _ & He1 & _).
  assert (Hfind : Session.find_inflight (Session.next_tag sf) (Session.inflight s1)
                  = Some q').
  { unfold s1. rewrite Hi, find_inflight_cons, Nat.eqb_refl. reflexivity. }
  destruct (settle_ok _ _ d w' s1 Hfind) as (Hg2 & He2 & _).
  unfold s2. split; [exact He1|]. split; [rewrite He2; exact He1 | exact Hg2].
Qed.

Lemma lookup_failure_handling_witness :
  let s := Session.run Samples.state3 [Session.Type_ "8.8.8.8"; Session.SearchClick] in
  Session.find_inflight 0 (Session.inflight s) = Some "8.8.8.8"
  /\ (forall d, Session.FetchRejected <> Session.FetchOk d)
  /\ Session.geo (Session.settle 0 Session.FetchRejected "t" s)
     = Session.geo s.
Proof.
  intros s. split; [reflexivity|]. split; [discriminate|].
  exact (proj1 (lookup_failure_handling s 0 "8.8.8.8" Session.FetchRejected "t"
                  eq_refl (fun d => ltac:(discriminate)))).
Defined.

Lemma classify_accepts (text : string) :
  Validator.classify text <> Validator.Invalid ->
  let l := Validator.trim (list_ascii_of_string text) in
  l <> [] /\ (Validator.test Validator.ipv4 l || Validator.test Validator.ipv6 l) = true
  /\ l <> list_ascii_of_string "geo".
Proof.
  intros H l. unfold Validator.classify in H. fold l in H.
  split; [intros E; rewrite E in H; exact (H eq_refl)|].
  split.
  - destruct l as [|c l']; [exact (False_ind _ (H eq_refl))|].
    destruct (Validator.test Validator.ipv4 (c :: l')); [reflexivity|].
    destruct (Validator.test Validator.ipv6 (c :: l')); [reflexivity|].
    exact (False_ind _ (H eq_refl)).
  - intros E. rewrite E in H. exact (H eq_refl).
Qed.

(** C10. A successful manual lookup records the query string that was
    dispatched: the trimmed input text for a search, the clicked entry's
    [ip] for a history click. The entry's [ip] never comes from the
    provider's answer [d] (whose [g_ip] may differ). *)
Theorem history_entry_keyed_by_query (s : Session.State) (d : GeoRecord)
    (w ip : string)
    (Hv : Validator.classify (Session.search s) <> Validator.Invalid)
    (Hip : ip <> "geo") :
  let typed := string_of_list_ascii
                 (Validator.trim (list_ascii_of_string (Session.search s))) in
  hd_error (Session.history
     (Session.settle (Session.next_tag s) (Session.FetchOk d) w
        (Session.handleSearch s)))
  = Some (mkEntry typed d w)
  /\ hd_error (Session.history
       (Session.settle (Session.next_tag s) (Session.FetchOk d) w
          (Session.handleHistoryClick ip s)))
     = Some (mkEntry ip d w).
Proof.
  intros typed.
  destruct (classify_accepts _ Hv) as (Hne & Htest & Hgeo).
  set (l := Validator.trim (list_ascii_of_string (Session.search s))) in *.
  split.
  - assert (Hh : Session.handleSearch s = Session.fetchGeoFor typed (Session.set_error "" s)).
    { unfold Session.handleSearch. simpl. fold l. unfold typed.
      fold l.
      rewrite list_ascii_of_string_of_list_ascii.
      destruct l as [|c l']; [congruence|]. simpl.
      destruct (Validator.test Validator.ipv4 (c :: l')), (Validator.test Validator.ipv6 (c :: l'));
        simpl in *; congruence. }
    rewrite Hh.
    destruct (fetchGeoFor_inflight typed (Session.set_error "" s)) as (Hi & _ & _ & _ & Hhist & _).
    assert (Hf : Session.find_inflight (Session.next_tag s)
                   (Session.inflight (Session.fetchGeoFor typed (Session.set_error "" s)))
                 = Some typed).
    { rewrite Hi. destruct s; simpl. rewrite Nat.eqb_refl. reflexivity. }
    destruct (settle_ok _ _ d w _ Hf) as (_ & _ & _ & Hrec & _).
    rewrite Hrec, Hhist.
    destruct (String.eqb_spec typed "geo") as [E|E].
    + exfalso. apply Hgeo. unfold typed in E.
      rewrite <- (list_ascii_of_string_of_list_ascii l). fold l in E.
      rewrite E. reflexivity.
    + reflexivity.
  - destruct (fetchGeoFor_inflight ip (Session.set_search ip s)) as (Hi & _ & _ & _ & Hhist & _).
    assert (Hf : Session.find_inflight (Session.next_tag s)
                   (Session.inflight (Session.handleHistoryClick ip s)) = Some ip).
    { unfold Session.handleHistoryClick. rewrite Hi. destruct s; simpl.
      rewrite Nat.eqb_refl. reflexivity. }
    destruct (settle_ok _ _ d w _ Hf) as (_ & _ & _ & Hrec & _).
    rewrite Hrec. unfold Session.handleHistoryClick. rewrite Hhist.
    destruct (String.eqb_spec ip "geo") as [E|E]; [congruence | reflexivity].
Qed.

Lemma history_entry_keyed_by_query_witness :
  let s := Session.set_search "  8.8.8.8 " Samples.state3 in
  Validator.classify (Session.search s) <> Validator.Invalid
  /\ "1.1.1.1" <> "geo"
  /\ hd_error (Session.history
       (Session.settle (Session.next_tag s) (Session.FetchOk Samples.geoA) "t"
          (Session.handleSearch s)))
     = Some (mkEntry "8.8.8.8" Samples.geoA "t").
Proof.
  intros s. split; [vm_compute; discriminate|]. split; [discriminate|].
  exact (proj1 (history_entry_keyed_by_query s Samples.geoA "t" "1.1.1.1"
                  ltac:(vm_compute; discriminate) ltac:(discriminate))).
Defined.

(* ------------------------------------------------------------------ *)
(** ** Loading the history *)

(** C6. The [history] initialiser never lets an error out: a throwing
    [getItem], a missing key, an empty string or text that [JSON.parse]
    rejects all give the empty array. *)
Theorem load_absorbs_bad_slot (item : Store.GetItem)
    (H : item = Store.GetThrows \/ item = Store.GetNull
         \/ item = Store.GetString ""
         \/ exists s, item = Store.GetString s /\ Store.json_parse s = None) :
  Store.load item = Store.JArray [].
Proof.
  destruct H as [->|[->|[->|(s & -> & Hs)]]]; try reflexivity.
  unfold Store.load.
  destruct (String.eqb_spec s "") as [->|_]; [reflexivity|].
  rewrite Hs. reflexivity.
Qed.

Lemma load_absorbs_bad_slot_witness :
  Store.json_parse "{not json" = None
  /\ Store.load (Store.GetString "{not json") = Store.JArray [].
Proof.
  split; [vm_compute; reflexivity|].
  apply load_absorbs_bad_slot. right; right; right.
  exists "{not json". split; [reflexivity | vm_compute; reflexivity].
Defined.

(* ------------------------------------------------------------------ *)
(** ** Map synchronisation *)

(** C3, as the code has it. Once a record with a usable [loc] has placed
    the marker and the precision circle, a record whose [loc] is absent or
    fails the effect's check (not exactly two [","]-separated parts, or a
    part that [parseFloat] reads as [NaN]) changes nothing on the map: the
    view, the marker, the popup and the circle all stay, the circle is not
    removed. *)
Theorem map_kept_on_unusable_loc (g1 g2 : GeoRecord) (ms0 : MapSync.MapState)
    (H1 : MapSync.loc_usable g1 = true) (H2 : MapSync.loc_usable g2 = false) :
  let m1 := MapSync.sync_map (Some g1) (Some ms0) in
  exists ms1, m1 = Some ms1
    /\ MapSync.marker ms1 <> None /\ MapSync.circle ms1 <> None
    /\ MapSync.sync_map (Some g2) m1 = m1.
Proof.
  unfold MapSync.loc_usable in H1, H2. unfold MapSync.sync_map.
  destruct (MapSync.loc_parts g1) as [|a [|b [|c rest]]]; try discriminate.
  apply negb_true_iff in H1. rewrite H1.
  eexists. split; [reflexivity|]. split; [discriminate|]. split; [discriminate|].
  destruct (MapSync.loc_parts g2) as [|x [|y [|z rest]]]; try reflexivity.
  apply negb_false_iff in H2. rewrite H2. reflexivity.
Qed.

Lemma map_kept_on_unusable_loc_witness :
  MapSync.loc_usable Samples.geo_pinned = true
  /\ MapSync.loc_usable Samples.geo_no_loc = false
  /\ exists ms1, MapSync.sync_map (Some Samples.geo_pinned) (Some MapSync.initial_map)
                 = Some ms1
       /\ MapSync.sync_map (Some Samples.geo_no_loc) (Some ms1) = Some ms1.
Proof.
  split; [vm_compute; reflexivity|]. split; [vm_compute; reflexivity|].
  destruct (map_kept_on_unusable_loc Samples.geo_pinned Samples.geo_no_loc
              MapSync.initial_map ltac:(vm_compute; reflexivity)
              ltac:(vm_compute; reflexivity)) as (ms1 & E & _ & _ & Hk).
  exists ms1. split; [exact E|]. rewrite <- E. exact Hk.
Defined.

(** C3 as stated fails: after "12.3,-45.6" placed the circle, a record
    with no [loc] leaves the circle on the map. *)
Lemma circle_not_removed_on_missing_loc :
  match MapSync.sync_map (Some Samples.geo_no_loc)
          (MapSync.sync_map (Some Samples.geo_pinned) (Some MapSync.initial_map)) with
  | Some ms => MapSync.circle ms <> None
  | None => False
  end.
Proof. vm_compute. discriminate. Qed.

(* ------------------------------------------------------------------ *)
(** ** The address check *)

Section RegexProps.
Import Validator AddrForms.
Local Open Scope list_scope.

Lemma denotes_cls (p : ascii -> bool) :
  denotes (Cls p) (fun x => exists c, x = [c] /\ p c = true).
Proof.
  intros s k. destruct s as [|c s]; simpl; split.
  - discriminate.
  - intros (x & q & E & (c & -> & _) & _). discriminate.
  - intros H. apply andb_true_iff in H as [Hp Hk].
    exists [c], s. eauto.
  - intros (x & q & E & (c' & -> & Hp) & Hk). simpl in E. injection E as -> ->.
    rewrite Hp, Hk. reflexivity.
Qed.

Lemma denotes_eps : denotes Eps (fun x => x = []).
Proof.
  intros s k. simpl. split.
  - intros H. exists [], s. auto.
  - intros (x & q & -> & -> & Hk). exact Hk.
Qed.

Lemma denotes_seq (r1 r2 : re) (P1 P2 : list ascii -> Prop) :
  denotes r1 P1 -> denotes r2 P2 ->
  denotes (Seq r1 r2) (fun x => exists a b, x = a ++ b /\ P1 a /\ P2 b).
Proof.
  intros H1 H2 s k. simpl. rewrite (H1 s (fun s' => mt r2 s' k)). split.
  - intros (a & q & -> & Ha & Hq). apply H2 in Hq as (b & q' & -> & Hb & Hk).
    exists (a ++ b), q'. rewrite app_assoc.
    split; [reflexivity|]. split; [exists a, b; auto | exact Hk].
  - intros (x & q & -> & (a & b & -> & Ha & Hb) & Hk).
    exists a, (b ++ q). rewrite app_assoc. split; [reflexivity|]. split; [exact Ha|].
    apply H2. eauto.
Qed.

Lemma denotes_alt (r1 r2 : re) (P1 P2 : list ascii -> Prop) :
  denotes r1 P1 -> denotes r2 P2 ->
  denotes (Alt r1 r2) (fun x => P1 x \/ P2 x).
Proof.
  intros H1 H2 s k. simpl. rewrite orb_true_iff, (H1 s k), (H2 s k). split.
  - intros [(x & q & ? & ? & ?)|(x & q & ? & ? & ?)]; eauto 6.
  - intros (x & q & ? & [?|?] & ?); [left|right]; eauto.
Qed.

Lemma denotes_iff (r : re) (P Q : list ascii -> Prop) :
  (forall x, P x <-> Q x) -> denotes r P -> denotes r Q.
Proof.
  intros HPQ H s k. rewrite (H s k). split; intros (x & q & ? & Hx & ?);
    exists x, q; (split; [assumption|]); (split; [apply HPQ, Hx|assumption]).
Qed.

Lemma test_denotes (r : re) (P : list ascii -> Prop) (s : list ascii) :
  denotes r P -> test r s = true <-> P s.
Proof.
  intros H. unfold test. rewrite (H s at_end). split.
  - intros (x & q & -> & Hx & Hq). destruct q; [|discriminate].
    rewrite app_nil_r. exact Hx.
  - intros Hs. exists s, []. rewrite app_nil_r. auto.
Qed.

Lemma denotes_rep (n : nat) (r : re) (P : list ascii -> Prop) :
  denotes r P ->
  denotes (rep n r) (fun x => exists xs, length xs = n /\ Forall P xs /\ x = concat xs).
Proof.
  intros H. induction n as [|n IH]; simpl.
  - eapply denotes_iff; [|exact denotes_eps]. intros x. split.
    + intros ->. exists []. auto.
    + intros ([|y xs] & Hl & _ & ->); [reflexivity | discriminate].
  - eapply denotes_iff; [|exact (denotes_seq _ _ _ _ H IH)]. intros x. split.
    + intros (a & b & -> & Ha & (xs & Hl & Hf & ->)).
      exists (a :: xs). simpl. split; [lia|]. split; [constructor; assumption | reflexivity].
    + intros ([|y xs] & Hl & Hf & ->); [discriminate|].
      inversion Hf; subst. simpl in Hl. exists y, (concat xs).
      split; [reflexivity|]. split; [assumption|]. exists xs. split; [lia|auto].
Qed.

Lemma denotes_rep_cls (n : nat) (p : ascii -> bool) :
  denotes (rep n (Cls p)) (fun x => length x = n /\ forallb p x = true).
Proof.
  induction n as [|n IH]; simpl.
  - eapply denotes_iff; [|exact denotes_eps]. intros x. split.
    + intros ->. auto.
    + intros [Hl _]. destruct x as [|c x']; [reflexivity | discriminate].
  - eapply denotes_iff; [|exact (denotes_seq _ _ _ _ (denotes_cls p) IH)].
    intros x. split.
    + intros (a & b & -> & (c & -> & Hc) & Hl & Hb). simpl. rewrite Hc, Hb.
      split; [lia | reflexivity].
    + intros [Hl Hx]. destruct x as [|c x']; [discriminate|].
      simpl in Hl, Hx. apply andb_true_iff in Hx as [Hc Hx'].
      exists [c], x'. split; [reflexivity|]. split; [eauto | split; [lia | exact Hx']].
Qed.

Lemma denotes_upto_cls (n : nat) (p : ascii -> bool) :
  denotes (upto n (Cls p)) (fun x => length x <= n /\ forallb p x = true).
Proof.
  induction n as [|n IH]; simpl.
  - eapply denotes_iff; [|exact denotes_eps]. intros x. split.
    + intros ->. simpl. auto.
    + intros [Hl _]. destruct x as [|c x']; [reflexivity | simpl in Hl; lia].
  - eapply denotes_iff;
      [|exact (denotes_alt _ _ _ _ (denotes_seq _ _ _ _ (denotes_cls p) IH) denotes_eps)].
    intros x. split.
    + intros [(a & b & -> & (c & -> & Hc) & Hl & Hb)| ->]; simpl; [|split; [lia|reflexivity]].
      rewrite Hc, Hb. split; [lia | reflexivity].
    + intros [Hl Hx]. destruct x as [|c x']; [right; reflexivity|left].
      simpl in Hl, Hx. apply andb_true_iff in Hx as [Hc Hx'].
      exists [c], x'. split; [reflexivity|]. split; [eauto|]. split; [lia | exact Hx'].
Qed.

Lemma denotes_hex_group : denotes hex_group hex_ok.
Proof.
  unfold hex_group, rep_range. simpl (4 - 1).
  eapply denotes_iff;
    [|exact (denotes_seq _ _ _ _ (denotes_rep_cls 1 is_hex) (denotes_upto_cls 3 is_hex))].
  intros x. unfold hex_ok. split.
  - intros (a & b & -> & (Hla & Ha) & (Hlb & Hb)).
    rewrite length_app, forallb_app, Ha, Hb. split; [lia | reflexivity].
  - intros (Hl & Hx). destruct x as [|c x']; [simpl in Hl; lia|].
    simpl in Hl, Hx. apply andb_true_iff in Hx as [Hc Hx'].
    exists [c], x'. simpl. rewrite Hc, Hx'. split; [reflexivity|]. split; [auto | split; [lia | reflexivity]].
Qed.

Lemma digit_cases (c : ascii) :
  is_digit c = false \/ c = "0"%char \/ c = "1"%char \/ c = "2"%char
  \/ c = "3"%char \/ c = "4"%char \/ c = "5"%char \/ c = "6"%char
  \/ c = "7"%char \/ c = "8"%char \/ c = "9"%char.
Proof.
  destruct c as [[] [] [] [] [] [] [] []];
    first [left; reflexivity
          | right; repeat (first [left; reflexivity | right]); reflexivity].
Qed.

Lemma nondigit_eqb (c d : ascii) :
  is_digit c = false -> is_digit d = true -> Ascii.eqb c d = false.
Proof.
  intros H1 H2. destruct (Ascii.eqb_spec c d); [subst; congruence | reflexivity].
Qed.

Lemma nondigit_range (c lo hi : ascii) :
  is_digit c = false ->
  (N_of_ascii "0" <= N_of_ascii lo)%N -> (N_of_ascii hi <= N_of_ascii "9")%N ->
  in_range lo hi c = false.
Proof.
  unfold is_digit, in_range. intros H Hl Hh.
  destruct (N.leb_spec (N_of_ascii lo) (N_of_ascii c)),
           (N.leb_spec (N_of_ascii c) (N_of_ascii hi)); try reflexivity.
  simpl in H. rewrite andb_false_iff in H.
  destruct H as [H|H]; apply N.leb_gt in H; simpl in *; lia.
Qed.

(** Split on the class of a character: a non-digit (all the digit
    classes of [octet] are then false) or one of the ten digits. *)
Ltac char_case c :=
  let H := fresh "H" in
  destruct (digit_cases c)
    as [H|[->|[->|[->|[->|[->|[->|[->|[->|[->| -> ]]]]]]]]]];
  [ repeat rewrite (nondigit_eqb c _ H) by reflexivity;
    repeat rewrite (nondigit_range c _ _ H) by (vm_compute; discriminate);
    repeat rewrite H | .. ].

Ltac close_with k :=
  vm_compute;
  repeat match goal with |- context [k ?x] => destruct (k x) end;
  reflexivity.

Lemma octet_unrolled (s : list ascii) (k : list ascii -> bool) :
  mt octet s k = oct_split s k.
Proof.
  unfold octet, oct_split, octet_ok, chr, digit, opt, rep_range.
  destruct s as [|c1 [|c2 [|c3 s3]]]; cbn [mt rep upto Nat.sub forallb];
    [ reflexivity
    | char_case c1
    | char_case c1; char_case c2
    | char_case c1; char_case c2; char_case c3 ];
    close_with k.
Qed.

Lemma octet_ok_length (x : list ascii) :
  octet_ok x = true -> 1 <= length x <= 3.
Proof.
  unfold octet_ok. intros H. repeat rewrite andb_true_iff in H.
  destruct H as ((((_ & H1) & H2) & _) & _).
  apply Nat.leb_le in H1, H2. lia.
Qed.

Lemma denotes_octet : denotes octet (fun x => octet_ok x = true).
Proof.
  intros s k. rewrite octet_unrolled. split.
  - destruct s as [|c1 s1]; [discriminate|]. cbn [oct_split].
    intros H. apply orb_true_iff in H as [H|H].
    + apply andb_true_iff in H as [Hx Hk]. exists [c1], s1. auto.
    + destruct s1 as [|c2 s2]; [discriminate|].
      apply orb_true_iff in H as [H|H].
      * apply andb_true_iff in H as [Hx Hk]. exists [c1; c2], s2. auto.
      * destruct s2 as [|c3 s3]; [discriminate|].
        apply andb_true_iff in H as [Hx Hk]. exists [c1; c2; c3], s3. auto.
  - intros (x & q & -> & Hx & Hk). pose proof (octet_ok_length x Hx) as Hl.
    destruct x as [|c1 [|c2 [|c3 [|c4 x]]]]; simpl in Hl; try lia;
      cbn [oct_split app]; rewrite Hx, Hk; rewrite ?orb_true_r; reflexivity.
Qed.

Lemma denotes_ipv4 : denotes ipv4 (dotted_quad (fun p => octet_ok p = true)).
Proof.
  unfold ipv4.
  eapply denotes_iff;
    [|exact (denotes_seq _ _ _ _ denotes_octet
               (denotes_rep 3 _ _ (denotes_seq _ _ _ _ (denotes_cls _) denotes_octet)))].
  intros x. unfold dotted_quad. split.
  - intros (a & r & -> & Ha & xs & Hl & Hf & ->).
    destruct xs as [|x1 [|x2 [|x3 [|x4 xs]]]]; simpl in Hl; try lia.
    inversion Hf as [|? ? H1 Hf1]; subst. inversion Hf1 as [|? ? H2 Hf2]; subst.
    inversion Hf2 as [|? ? H3 _]; subst.
    destruct H1 as (d1 & o1 & -> & (c1 & -> & E1) & O1).
    destruct H2 as (d2 & o2 & -> & (c2 & -> & E2) & O2).
    destruct H3 as (d3 & o3 & -> & (c3 & -> & E3) & O3).
    apply Ascii.eqb_eq in E1, E2, E3. subst.
    exists a, o1, o2, o3. simpl. rewrite app_nil_r. auto.
  - intros (a & b & c & d & -> & Ha & Hb & Hc & Hd).
    exists a, ("."%char :: b ++ "."%char :: c ++ "."%char :: d).
    split; [reflexivity|]. split; [exact Ha|].
    exists [["."%char] ++ b; ["."%char] ++ c; ["."%char] ++ d].
    split; [reflexivity|].
    split; [repeat constructor; eexists _, _; (split; [reflexivity|]);
            (split; [eexists; split; [reflexivity | reflexivity]|]); assumption|].
    simpl. rewrite app_nil_r. reflexivity.
Qed.

Lemma Forall_group_colon (xs : list (list ascii)) :
  Forall (fun y => exists a b, y = a ++ b /\ hex_ok a
            /\ (exists c, b = [c] /\ Ascii.eqb c ":" = true)) xs
  <-> exists gs, xs = map (fun g => g ++ [":"%char]) gs /\ Forall hex_ok gs.
Proof.
  induction xs as [|y xs IH]; split.
  - intros _. exists []. auto.
  - intros _. constructor.
  - intros Hf. inversion Hf as [|? ? (a & b & -> & Ha & (c & -> & Ec)) Hr]; subst.
    apply Ascii.eqb_eq in Ec. subst.
    destruct (proj1 IH Hr) as (gs & -> & Hg).
    exists (a :: gs). simpl. auto.
  - intros ([|g gs] & E & Hg); [discriminate|].
    simpl in E. injection E as -> ->. inversion Hg; subst.
    constructor.
    + exists g, [":"%char]. eauto.
    + apply IH. eauto.
Qed.

Lemma denotes_ipv6 : denotes ipv6 (fun x => v6_full x \/ x = loopback).
Proof.
  unfold ipv6.
  eapply denotes_iff;
    [|exact (denotes_alt _ _ _ _
               (denotes_seq _ _ _ _
                  (denotes_rep 7 _ _ (denotes_seq _ _ _ _ denotes_hex_group (denotes_cls _)))
                  denotes_hex_group)
               (denotes_seq _ _ _ _ (denotes_cls _)
                  (denotes_seq _ _ _ _ (denotes_cls _) (denotes_cls _))))].
  intros x. unfold v6_full, loopback. split.
  - intros [(a & g & -> & (xs & Hl & Hf & ->) & Hg)
           |(a & r & -> & (c1 & -> & E1) & (b & d & -> & (c2 & -> & E2) & (c3 & -> & E3)))].
    + left. apply Forall_group_colon in Hf as (gs & -> & Hgs).
      rewrite length_map in Hl. exists gs, g. split; [exact Hl|]. split; [exact Hgs|]. split; [exact Hg | reflexivity].
    + right. apply Ascii.eqb_eq in E1, E2, E3. subst. reflexivity.
  - intros [(gs & g & Hl & Hgs & Hg & ->)| ->].
    + left. exists (concat (map (fun y => y ++ [":"%char]) gs)), g.
      split; [reflexivity|]. split; [|exact Hg].
      exists (map (fun y => y ++ [":"%char]) gs).
      split; [rewrite length_map; exact Hl|]. split; [|reflexivity].
      apply Forall_group_colon. eauto.
    + right. exists [":"%char], [":"%char; "1"%char].
      split; [reflexivity|]. split; [exists ":"%char; split; reflexivity|].
      exists [":"%char], ["1"%char]. split; [reflexivity|].
      split; [exists ":"%char | exists "1"%char]; split; reflexivity.
Qed.

Lemma quad_no_colon (x : list ascii) :
  dotted_quad (fun p => octet_ok p = true) x -> ~ In ":"%char x.
Proof.
  intros (a & b & c & d & -> & Ha & Hb & Hc & Hd).
  assert (Hdig : forall p, octet_ok p = true -> ~ In ":"%char p).
  { intros p Hp Hin. unfold octet_ok in Hp. repeat rewrite andb_true_iff in Hp.
    destruct Hp as ((((Hp & _) & _) & _) & _).
    rewrite forallb_forall in Hp. specialize (Hp _ Hin). discriminate. }
  intros Hin. repeat (apply in_app_or in Hin as [Hin|Hin]; [refine (Hdig _ _ Hin); assumption|];
                      destruct Hin as [Hin|Hin]; [discriminate|]).
  exact (Hdig d Hd Hin).
Qed.

Lemma v6_has_colon (x : list ascii) :
  v6_full x \/ x = loopback -> In ":"%char x.
Proof.
  intros [(gs & g & Hl & _ & _ & ->)| ->]; [|simpl; auto].
  destruct gs as [|g1 gs]; [discriminate|].
  simpl. apply in_or_app. left. apply in_or_app. left.
  apply in_or_app. right. simpl. auto.
Qed.

End RegexProps.

(** C8, as the code has it. [classify] is a total function onto the three
    kinds, applied to the trimmed input. The trimmed input is IPv4 exactly
    when it is four [.]-separated octets of one to three ASCII digits with
    value at most 255, a three-digit octet not starting with 0 (so [01] and
    [00] are accepted, [000] and [001] are not); it is IPv6 exactly in the
    full eight-group form or as [::1]; everything else, the empty string
    included, is Invalid. *)
Theorem classify_characterised :
  (forall text : string,
     let t := Validator.trim (list_ascii_of_string text) in
     (Validator.classify text = Validator.IPv4
        <-> AddrForms.dotted_quad (fun p => AddrForms.octet_ok p = true) t)
     /\ (Validator.classify text = Validator.IPv6
           <-> AddrForms.v6_full t \/ t = AddrForms.loopback)
     /\ (Validator.classify text = Validator.Invalid
           <-> ~ AddrForms.dotted_quad (fun p => AddrForms.octet_ok p = true) t
               /\ ~ (AddrForms.v6_full t \/ t = AddrForms.loopback)))
  /\ Validator.classify "8.8.8.8" = Validator.IPv4
  /\ Validator.classify "::1" = Validator.IPv6
  /\ Validator.classify "not-an-ip" = Validator.Invalid
  /\ Validator.classify "" = Validator.Invalid.
Proof.
  split; [|repeat split; vm_compute; reflexivity].
  intros text t.
  pose proof (test_denotes _ _ t denotes_ipv4) as H4.
  pose proof (test_denotes _ _ t denotes_ipv6) as H6.
  set (Q4 := AddrForms.dotted_quad (fun p => AddrForms.octet_ok p = true)) in *.
  set (Q6 := fun x => AddrForms.v6_full x \/ x = AddrForms.loopback) in *.
  assert (Hx : ~ (Q4 t /\ Q6 t)).
  { intros [Ha Hb]. exact (quad_no_colon _ Ha (v6_has_colon _ Hb)). }
  unfold Validator.classify. fold t. cbv beta in H6 |- *. fold (Q6 t) in H6 |- *.
  destruct t as [|c t'].
  - assert (N4 : ~ Q4 []).
    { intros (a & b & c & d & E & _). destruct a; discriminate. }
    assert (N6 : ~ Q6 []) by (intros H; exact (v6_has_colon _ H)).
    repeat split; try discriminate; try tauto.
  - destruct (Validator.test Validator.ipv4 (c :: t')) eqn:E4,
             (Validator.test Validator.ipv6 (c :: t')) eqn:E6;
      destruct H4 as [H4a H4b], H6 as [H6a H6b];
      repeat split; intros; try discriminate; try tauto;
      match goal with
      | H : Q4 _ |- _ => specialize (H4b H); discriminate
      | H : Q6 _ |- _ => specialize (H6b H); discriminate
      | _ => idtac
      end.
Qed.

(** C8 as stated fails: "000.0.0.0" is four dot-separated decimal octets
    each of value 0, yet [classify] says Invalid; and "01.2.3.4", whose
    first octet has a leading zero, is accepted. *)
Lemma classify_decimal_quad_fails :
  ~ (forall text : string,
       Validator.classify text = Validator.IPv4
       <-> AddrForms.dotted_quad AddrForms.dec_octet
             (Validator.trim (list_ascii_of_string text)))
  /\ Validator.classify "000.0.0.0" = Validator.Invalid
  /\ Validator.classify "01.2.3.4" = Validator.IPv4.
Proof.
  split; [|split; vm_compute; reflexivity].
  intros H. specialize (H "000.0.0.0").
  assert (Hq : AddrForms.dotted_quad AddrForms.dec_octet
                 (Validator.trim (list_ascii_of_string "000.0.0.0"))).
  { exists ["0"%char; "0"%char; "0"%char], ["0"%char], ["0"%char], ["0"%char].
    split; [vm_compute; reflexivity|].
    unfold AddrForms.dec_octet.
    repeat split; try discriminate; vm_compute; try reflexivity; discriminate. }
  apply H in Hq. vm_compute in Hq. discriminate.
Qed.

(* ================================================================== *)
(** * Further properties of the component and its caller *)

Section JsonRoundTrip.
Import Store Persist JsonFacts.
Local Open Scope list_scope.


Lemma escape_unit_parse (u : N) (r : list ascii) (acc : list N) :
  (u < 256)%N ->
  p_string (escape_unit u ++ r) acc = p_string r (u :: acc).
Proof.
  intros Hu. rewrite <- (N_ascii_embedding u Hu).
  generalize (ascii_of_N u) as a. clear. intros a.
  destruct a as [[] [] [] [] [] [] [] []]; reflexivity.
Qed.

Lemma quote_body_parse (u : list N) (r : list ascii) (acc : list N) :
  forallb (fun x => (x <? 256)%N) u = true ->
  p_string (concat (map escape_unit u) ++ dquote :: r) acc
  = Some (rev acc ++ u, r).
Proof.
  revert acc; induction u as [|x u IH]; intros acc Hu; simpl.
  - rewrite app_nil_r. reflexivity.
  - apply andb_true_iff in Hu as [Hx Hu]. apply N.ltb_lt in Hx.
    rewrite <- app_assoc, escape_unit_parse by exact Hx.
    rewrite IH by exact Hu. simpl. rewrite <- app_assoc. reflexivity.
Qed.

Lemma p_value_string (f : nat) (r : list ascii) :
  p_value (S f) (dquote :: r)
  = match p_string r [] with
    | Some (u, r') => Some (JString u, r')
    | None => None
    end.
Proof. reflexivity. Qed.

Lemma p_elems_step (f : nat) (s : list ascii) (acc : list json) :
  p_elems (S f) s acc
  = match p_value f s with
    | None => None
    | Some (v, r) =>
        match skip_ws r with
        | ","%char :: r' => p_elems f r' (v :: acc)
        | "]"%char :: r' => Some (JArray (rev (v :: acc)), r')
        | _ => None
        end
    end.
Proof. reflexivity. Qed.

Lemma p_members_step (f : nat) (r : list ascii) (acc : list (list N * json)) :
  p_members (S f) (dquote :: r) acc
  = match p_string r [] with
    | None => None
    | Some (k, r1) =>
        match skip_ws r1 with
        | ":"%char :: r2 =>
            match p_value f r2 with
            | None => None
            | Some (v, r3) =>
                match skip_ws r3 with
                | ","%char :: r4 => p_members f r4 ((k, v) :: acc)
                | "}"%char :: r4 => Some (JObject (rev ((k, v) :: acc)), r4)
                | _ => None
                end
            end
        | _ => None
        end
    end.
Proof. reflexivity. Qed.

Lemma stringify_starts (v : json) (rest : list ascii) :
  printable v = true -> starts_value (stringify v ++ rest).
Proof.
  intros Hp. destruct v as [| [] | lx | u | es | ms]; simpl in *;
    [eexists; tauto .. | discriminate | eexists; tauto | eexists; tauto
    | eexists; tauto].
Qed.

Lemma join_comma_cons (x : list ascii) (xs : list (list ascii)) :
  exists t, join_comma (x :: xs) = x ++ t.
Proof.
  destruct xs as [|y xs]; [exists []; simpl; rewrite app_nil_r; reflexivity|].
  eexists. reflexivity.
Qed.

Lemma p_value_array_nonempty (f : nat) (r : list ascii) :
  starts_value r -> p_value (S f) ("["%char :: r) = p_elems f r [].
Proof.
  intros (t & [-> | [-> | [-> | [-> | [-> | ->]]]]]); reflexivity.
Qed.

Lemma skip_ws_comma (r : list ascii) : skip_ws (","%char :: r) = ","%char :: r.
Proof. reflexivity. Qed.

Lemma skip_ws_colon (r : list ascii) : skip_ws (":"%char :: r) = ":"%char :: r.
Proof. reflexivity. Qed.

Lemma p_value_object_nonempty (f : nat) (r : list ascii) :
  (exists t, r = dquote :: t) -> p_value (S f) ("{"%char :: r) = p_members f r [].
Proof. intros (t & ->). reflexivity. Qed.

Lemma elems_parse (es : list json) :
  Forall parses_back es -> forallb printable es = true ->
  forall n acc rest, es <> [] ->
  list_sum (map (fun x => S (jsize x)) es) <= n ->
  p_elems n (join_comma (map stringify es) ++ "]"%char :: rest) acc
  = Some (JArray (rev acc ++ es), rest).
Proof.
  induction es as [|x es IH]; intros Hall Hp n acc rest Hne Hn;
    [congruence|].
  inversion Hall as [|? ? Hx Hes]; subst.
  simpl in Hp. apply andb_true_iff in Hp as [Hpx Hpes].
  simpl in Hn. destruct n as [|f]; [lia|].
  rewrite p_elems_step.
  destruct es as [|y es'].
  - simpl. rewrite (Hx Hpx f ("]"%char :: rest)) by lia.
    simpl. reflexivity.
  - change (join_comma (map stringify (x :: y :: es')))
      with (stringify x ++ ","%char :: join_comma (map stringify (y :: es'))).
    rewrite <- app_assoc. cbn [app].
    rewrite (Hx Hpx f) by lia. rewrite skip_ws_comma. cbv iota beta.
    rewrite (IH Hes Hpes f (x :: acc) rest) by (try discriminate; simpl in *; lia).
    simpl. rewrite <- app_assoc. reflexivity.
Qed.

Lemma members_parse (ms : list (list N * json)) :
  Forall (fun m => parses_back (snd m)) ms ->
  forallb (fun '(k, x) => forallb (fun y => (y <? 256)%N) k && printable x) ms
    = true ->
  forall n acc rest, ms <> [] ->
  list_sum (map (fun '(_, x) => S (jsize x)) ms) <= n ->
  p_members n
    (join_comma (map (fun '(k, x) => quote k ++ ":"%char :: stringify x) ms)
       ++ "}"%char :: rest) acc
  = Some (JObject (rev acc ++ ms), rest).
Proof.
  induction ms as [|[k x] ms IH]; intros Hall Hp n acc rest Hne Hn;
    [congruence|].
  inversion Hall as [|? ? Hx Hms]; subst. simpl in Hx.
  simpl in Hp. apply andb_true_iff in Hp as [Hpx Hpms].
  apply andb_true_iff in Hpx as [Hk Hpx].
  simpl in Hn. destruct n as [|f]; [lia|].
  destruct ms as [|m' ms'].
  - cbn [map join_comma]. unfold quote. cbn [app]. rewrite <- !app_assoc.
    cbn [app].
    rewrite p_members_step, quote_body_parse by exact Hk. cbn [rev app].
    rewrite skip_ws_colon. cbv iota beta.
    rewrite (Hx Hpx f ("}"%char :: rest)) by lia. reflexivity.
  - change (join_comma (map (fun '(k, x) => quote k ++ ":"%char :: stringify x)
                          ((k, x) :: m' :: ms')))
      with ((quote k ++ ":"%char :: stringify x) ++ ","%char
              :: join_comma (map (fun '(k, x) => quote k ++ ":"%char :: stringify x)
                               (m' :: ms'))).
    unfold quote at 1. cbn [app]. rewrite <- !app_assoc. cbn [app].
    rewrite p_members_step, quote_body_parse by exact Hk. cbn [rev app].
    rewrite skip_ws_colon. cbv iota beta.
    rewrite (Hx Hpx f) by lia. rewrite skip_ws_comma. cbv iota beta.
    rewrite (IH Hms Hpms f ((k, x) :: acc) rest) by (try discriminate; simpl in *; lia).
    simpl. rewrite <- app_assoc. reflexivity.
Qed.

Lemma stringify_parses_back (v : json) : parses_back v.
Proof.
  induction v as [| b | lx | u | es IHes | ms IHms] using json_ind';
    unfold parses_back; intros Hp n rest Hn; simpl in Hn;
    (destruct n as [|f]; [lia|]).
  - reflexivity.
  - destruct b; reflexivity.
  - discriminate.
  - cbn [stringify]. unfold quote. cbn [app]. rewrite <- app_assoc. cbn [app].
    rewrite p_value_string, quote_body_parse by exact Hp. reflexivity.
  - destruct es as [|e es'].
    + reflexivity.
    + cbn [stringify app]. rewrite <- app_assoc. cbn [app].
      rewrite p_value_array_nonempty.
      * apply (elems_parse (e :: es') IHes Hp f [] rest); [discriminate | lia].
      * destruct (join_comma_cons (stringify e) (map stringify es')) as [t Ht].
        change (map stringify (e :: es')) with (stringify e :: map stringify es').
        rewrite Ht, <- app_assoc. apply stringify_starts.
        simpl in Hp. apply andb_true_iff in Hp as [Hp _]. exact Hp.
  - destruct ms as [|[k x] ms'].
    + reflexivity.
    + cbn [stringify app]. rewrite <- app_assoc. cbn [app].
      rewrite p_value_object_nonempty.
      * apply (members_parse ((k, x) :: ms') IHms Hp f [] rest); [discriminate | lia].
      * destruct (join_comma_cons (quote k ++ ":"%char :: stringify x)
                  (map (fun '(k, x) => quote k ++ ":"%char :: stringify x) ms'))
          as [t Ht].
        change (map (fun '(k, x) => quote k ++ ":"%char :: stringify x) ((k, x) :: ms'))
          with ((quote k ++ ":"%char :: stringify x)
                  :: map (fun '(k, x) => quote k ++ ":"%char :: stringify x) ms').
        rewrite Ht. eexists. reflexivity.
Qed.

Lemma list_sum_map_le {A} (f g : A -> nat) (l : list A) :
  Forall (fun x => f x <= g x) l -> list_sum (map f l) <= list_sum (map g l).
Proof.
  induction 1 as [|x l Hx _ IH]; simpl; lia.
Qed.

Lemma join_comma_length (xs : list (list ascii)) :
  list_sum (map (fun x => S (length x)) xs) <= S (length (join_comma xs)).
Proof.
  induction xs as [|x [|y xs] IH]; simpl in *; [lia | lia |].
  rewrite length_app. simpl. lia.
Qed.

Lemma jsize_le_length (v : json) :
  printable v = true -> jsize v <= length (stringify v).
Proof.
  induction v as [| b | lx | u | es IHes | ms IHms] using json_ind';
    intros Hp; simpl in Hp.
  - simpl. lia.
  - destruct b; simpl; lia.
  - discriminate.
  - simpl. lia.
  - cbn [jsize stringify]. rewrite length_cons, length_app. simpl length at 2.
    enough (list_sum (map (fun x => S (jsize x)) es)
            <= list_sum (map (fun x => S (length x)) (map stringify es))) as H.
    { pose proof (join_comma_length (map stringify es)). lia. }
    rewrite map_map. apply list_sum_map_le.
    induction IHes as [|e es He _ IH]; constructor.
    + simpl in Hp. apply andb_true_iff in Hp as [Hp _]. specialize (He Hp). lia.
    + apply IH. simpl in Hp. apply andb_true_iff in Hp as [_ Hp]. exact Hp.
  - cbn [jsize stringify]. rewrite length_cons, length_app. simpl length at 2.
    enough (list_sum (map (fun '(_, x) => S (jsize x)) ms)
            <= list_sum (map (fun x => S (length x))
                 (map (fun '(k, x) => quote k ++ ":"%char :: stringify x) ms))) as H.
    { pose proof (join_comma_length
        (map (fun '(k, x) => quote k ++ ":"%char :: stringify x) ms)). lia. }
    rewrite map_map. apply list_sum_map_le.
    induction IHms as [|[k x] ms Hx _ IH]; constructor.
    + simpl in Hp. apply andb_true_iff in Hp as [Hp _].
      apply andb_true_iff in Hp as [_ Hp]. specialize (Hx Hp). simpl in Hx.
      rewrite length_app. simpl. lia.
    + apply IH. simpl in Hp. apply andb_true_iff in Hp as [_ Hp]. exact Hp.
Qed.

Lemma json_parse_stringify (v : json) :
  printable v = true -> json_parse (stringify_text v) = Some v.
Proof.
  intros Hp. unfold json_parse, stringify_text.
  rewrite list_ascii_of_string_of_list_ascii.
  pose proof (jsize_le_length v Hp) as Hl.
  pose proof (stringify_parses_back v Hp (3 * length (stringify v) + 3) [])
    as H.
  rewrite app_nil_r in H. rewrite H by lia. reflexivity.
Qed.

Lemma units_printable (s : string) :
  forallb (fun x => (x <? 256)%N) (units s) = true.
Proof.
  unfold units. induction (list_ascii_of_string s) as [|c l IH]; [reflexivity|].
  simpl. rewrite IH, andb_true_r. apply N.ltb_lt, N_ascii_bounded.
Qed.

Lemma opt_field_printable (k : string) (o : option string) :
  forallb (fun '(k, x) => forallb (fun y => (y <? 256)%N) k && printable x)
    (opt_field k o) = true.
Proof.
  destruct o as [v|]; [|reflexivity]. simpl.
  rewrite !units_printable. reflexivity.
Qed.

Lemma history_json_printable (hist : list HistoryEntry) :
  printable (history_json hist) = true.
Proof.
  unfold history_json. simpl. induction hist as [|h hist IH]; [reflexivity|].
  simpl. rewrite IH, andb_true_r.
  rewrite !units_printable. simpl.
  rewrite !forallb_app, !opt_field_printable. reflexivity.
Qed.

Lemma load_history_json (hist : list HistoryEntry) :
  load (GetString (stringify_text (history_json hist))) = history_json hist.
Proof.
  unfold load.
  assert (Hne : String.eqb (stringify_text (history_json hist)) "" = false)
    by reflexivity.
  rewrite Hne, json_parse_stringify by apply history_json_printable.
  reflexivity.
Qed.

End JsonRoundTrip.

Section StorageSync.
Import Session Persist.

Lemma handleSearch_keeps (s : State) :
  geo (handleSearch s) = geo s /\ history (handleSearch s) = history s
  /\ slot (handleSearch s) = slot s
  /\ selectedForDelete (handleSearch s) = selectedForDelete s.
Proof.
  unfold handleSearch.
  repeat match goal with |- context [if ?b then _ else _] => destruct b end;
    destruct s; repeat split.
Qed.

Lemma step_synced (s : State) (e : Event) : synced s -> synced (step s e).
Proof.
  unfold synced. intros H.
  destruct e as [t| | |ip|idx| | |tag out w]; simpl.
  - destruct s; exact H.
  - destruct (handleSearch_keeps s) as (_ & -> & -> & _). exact H.
  - destruct s; exact H.
  - destruct s; exact H.
  - destruct s; exact H.
  - destruct s; left; reflexivity.
  - destruct s; right; split; reflexivity.
  - unfold settle. destruct (find_inflight tag (inflight s)) as [q|]; [|exact H].
    destruct out; [destruct (String.eqb q "geo")| | |]; destruct s;
      try exact H; left; reflexivity.
Qed.

Lemma run_synced (s : State) (es : list Event) : synced s -> synced (run s es).
Proof.
  unfold run. revert s; induction es as [|e es IH]; intros s H; simpl;
    [exact H|].
  apply IH, step_synced, H.
Qed.

End StorageSync.

Section HistoryFacts.
Local Open Scope list_scope.

Lemma filter_absent (q : string) (l : list HistoryEntry) :
  ~ In q (map h_ip l) ->
  List.filter (fun h => negb (String.eqb (h_ip h) q)) l = l.
Proof.
  induction l as [|h l IH]; simpl; intros Hn; [reflexivity|].
  destruct (String.eqb_spec (h_ip h) q) as [E|E]; [tauto|].
  simpl. rewrite IH by tauto. reflexivity.
Qed.

Lemma filter_remove_nth (l : list HistoryEntry) (i : nat) (h : HistoryEntry) :
  List.NoDup (map h_ip l) -> nth_error l i = Some h ->
  List.filter (fun x => negb (String.eqb (h_ip x) (h_ip h))) l
  = firstn i l ++ skipn (S i) l.
Proof.
  revert i; induction l as [|x l IH]; intros i Hn Hi; [destruct i; discriminate|].
  inversion Hn as [|? ? Hx Hl]; subst.
  destruct i as [|i]; simpl in Hi |- *.
  - injection Hi as ->. rewrite String.eqb_refl. simpl.
    apply filter_absent, Hx.
  - destruct (String.eqb_spec (h_ip x) (h_ip h)) as [E|E].
    + exfalso. apply Hx. rewrite E. apply in_map.
      eapply nth_error_In. exact Hi.
    + simpl. rewrite (IH i Hl Hi). reflexivity.
Qed.

Lemma firstn_app_firstn {A} (n : nat) (a b : list A) :
  firstn n (a ++ firstn n b) = firstn n (a ++ b).
Proof.
  rewrite !firstn_app, firstn_firstn. f_equal. f_equal. lia.
Qed.

Lemma NoDup_app_firstn {A} (n : nat) (a b : list A) :
  List.NoDup (a ++ b) -> List.NoDup (a ++ firstn n b).
Proof.
  induction a as [|x a IH]; simpl; intros H.
  - pose proof (NoDup_map_firstn (fun y => y) n b) as Hf.
    rewrite !map_id in Hf. exact (Hf H).
  - inversion H as [|? ? Hx Hab]; subst. constructor; [|exact (IH Hab)].
    intros Hin. apply Hx. apply in_app_or in Hin as [Hin|Hin];
      apply in_or_app; [left; exact Hin | right; exact (in_firstn _ _ _ Hin)].
Qed.

Lemma record_all_fresh (calls : list (string * GeoRecord * string))
    (prev : list HistoryEntry) :
  List.NoDup (map (fun c => fst (fst c)) calls ++ map h_ip prev) ->
  map h_ip (record_all calls prev)
  = firstn HISTORY_CAP (rev (map (fun c => fst (fst c)) calls) ++ map h_ip prev)
    \/ (calls = [] /\ map h_ip (record_all calls prev) = map h_ip prev).
Proof.
  revert prev; induction calls as [|[[q d] w] calls IH]; intros prev H;
    [right; split; reflexivity|].
  left. simpl in H |- *.
  inversion H as [|? ? Hq Hrest]; subst.
  assert (Hnot : ~ In q (map h_ip prev)) by (intros Hin; apply Hq, in_or_app; right; exact Hin).
  assert (Hrl : map h_ip (record_lookup q d w prev)
                = firstn HISTORY_CAP (q :: map h_ip prev)).
  { rewrite record_lookup_eq, filter_absent by exact Hnot. simpl.
    rewrite <- firstn_map. reflexivity. }
  assert (Hnd : List.NoDup (map (fun c => fst (fst c)) calls
                             ++ map h_ip (record_lookup q d w prev))).
  { rewrite Hrl. apply NoDup_app_firstn.
    apply Permutation.Permutation_NoDup with (q :: map (fun c => fst (fst c)) calls ++ map h_ip prev);
      [apply Permutation.Permutation_middle | constructor; assumption]. }
  destruct (IH _ Hnd) as [E | [-> E]]; rewrite E.
  - rewrite Hrl, firstn_app_firstn, <- !app_assoc. reflexivity.
  - rewrite Hrl. reflexivity.
Qed.

Lemma filter_unselected_length {A} (sel : Selection) (k : nat) (l : list A) :
  length (filter_unselected sel k l)
  + length (List.filter (sel_get sel) (seq k (length l))) = length l.
Proof.
  revert k; induction l as [|x l IH]; intros k; simpl; [reflexivity|].
  destruct (sel_get sel k); simpl; specialize (IH (S k)); lia.
Qed.

End HistoryFacts.

Section RenderFacts.
Import Render.

Lemma record_all_nodup (calls : list (string * GeoRecord * string)) :
  List.NoDup (map h_ip (record_all calls [])).
Proof. apply record_all_inv; simpl; [constructor | lia]. Qed.

End RenderFacts.

Section AddressChars.
Import Validator AddrForms Requests.
Local Open Scope list_scope.

Lemma url_delim_addr_char (c : ascii) :
  is_hex c = true \/ c = "."%char \/ c = ":"%char ->
  Requests.url_delim c = false.
Proof.
  intros H. unfold Requests.url_delim.
  destruct (Ascii.eqb_spec c "/") as [->|_];
    [destruct H as [H|[H|H]]; [vm_compute in H; discriminate | discriminate | discriminate]|].
  destruct (Ascii.eqb_spec c "?") as [->|_];
    [destruct H as [H|[H|H]]; [vm_compute in H; discriminate | discriminate | discriminate]|].
  destruct (Ascii.eqb_spec c "#") as [->|_];
    [destruct H as [H|[H|H]]; [vm_compute in H; discriminate | discriminate | discriminate]|].
  reflexivity.
Qed.

Lemma no_delim_app (a b : list ascii) :
  no_delim a -> no_delim b -> no_delim (a ++ b).
Proof. unfold no_delim. rewrite forallb_app. intros -> ->. reflexivity. Qed.

Lemma no_delim_cons (c : ascii) (a : list ascii) :
  Requests.url_delim c = false -> no_delim a -> no_delim (c :: a).
Proof. unfold no_delim. simpl. intros -> ->. reflexivity. Qed.

Lemma no_delim_forallb (p : ascii -> bool) (a : list ascii) :
  (forall c, p c = true -> Requests.url_delim c = false) ->
  forallb p a = true -> no_delim a.
Proof.
  intros Hp. unfold no_delim. induction a as [|c a IH]; simpl; [reflexivity|].
  intros H. apply andb_true_iff in H as [Hc Ha].
  rewrite (Hp c Hc), IH by exact Ha. reflexivity.
Qed.

Lemma digit_hex (c : ascii) : is_digit c = true -> is_hex c = true.
Proof. unfold is_hex, is_digit. intros ->. reflexivity. Qed.

Lemma octet_no_delim (p : list ascii) : octet_ok p = true -> no_delim p.
Proof.
  unfold octet_ok. intros H. repeat rewrite andb_true_iff in H.
  destruct H as ((((H & _) & _) & _) & _).
  apply (no_delim_forallb is_digit); [|exact H].
  intros c Hc. apply url_delim_addr_char. left. apply digit_hex, Hc.
Qed.

Lemma accepted_no_delim (t : list ascii) :
  (test ipv4 t || test ipv6 t) = true -> no_delim t.
Proof.
  intros H. apply orb_true_iff in H as [H|H].
  - apply (proj1 (test_denotes _ _ t denotes_ipv4)) in H.
    destruct H as (a & b & c & d & -> & Ha & Hb & Hc & Hd).
    assert (Hdot : Requests.url_delim "."%char = false) by reflexivity.
    repeat (apply no_delim_app || apply no_delim_cons);
      try exact Hdot; apply octet_no_delim; assumption.
  - apply (proj1 (test_denotes _ _ t denotes_ipv6)) in H.
    destruct H as [(gs & g & _ & Hgs & Hg & ->) | ->]; [|reflexivity].
    assert (Hgroup : forall x, hex_ok x -> no_delim x).
    { intros x [_ Hx]. apply (no_delim_forallb is_hex); [|exact Hx].
      intros c Hc. apply url_delim_addr_char. left. exact Hc. }
    apply no_delim_app; [|apply Hgroup, Hg].
    induction Hgs as [|x gs Hx _ IH]; [reflexivity|].
    simpl. apply no_delim_app; [apply no_delim_app; [apply Hgroup, Hx | reflexivity]|].
    exact IH.
Qed.

End AddressChars.

Section RoutingFacts.
Import Routing.

Lemma element_for_home (a : option string) (st : Storage) :
  element_for a st "/home"
  = if truthy (st !! AUTH_KEY) then Render HomeScreen else Navigate "/login".
Proof. reflexivity. Qed.

Lemma element_for_login (a : option string) (st : Storage) :
  element_for a st "/login" = Render LoginScreen.
Proof. reflexivity. Qed.

Lemma element_for_root (a : option string) (st : Storage) :
  element_for a st "/"
  = Navigate (if truthy a then "/home" else "/login").
Proof. reflexivity. Qed.

Lemma resolve_step (f : nat) (a : option string) (st : Storage) (path : string) :
  resolve (S f) a st path
  = match element_for a st path with
    | Render sc => Some sc
    | Navigate to => resolve f a st to
    end.
Proof. reflexivity. Qed.

Lemma resolve_home_needs_token (fuel : nat) (a : option string) (st : Storage)
    (path : string) :
  resolve fuel a st path = Some HomeScreen -> truthy (st !! AUTH_KEY) = true.
Proof.
  revert path; induction fuel as [|f IH]; intros path H; [discriminate|].
  rewrite resolve_step in H. unfold element_for in H.
  destruct (matches _ _); [exact (IH _ H)|].
  destruct (matches _ _); [discriminate|].
  destruct (matches _ _); [|exact (IH _ H)].
  destruct (truthy (st !! AUTH_KEY)) eqn:E; [reflexivity|exact (IH _ H)].
Qed.

(** Resolution from ["/home"] and ["/"] with at least the fuel they need. *)
Lemma resolve_home (f : nat) (a : option string) (st : Storage) :
  resolve (S (S f)) a st "/home"
  = Some (if truthy (st !! AUTH_KEY) then HomeScreen else LoginScreen).
Proof.
  rewrite resolve_step, element_for_home.
  destruct (truthy (st !! AUTH_KEY)); cbv iota beta; [reflexivity|].
  rewrite resolve_step, element_for_login. reflexivity.
Qed.

Lemma resolve_root (f : nat) (a : option string) (st : Storage) :
  resolve (S (S (S f))) a st "/"
  = Some (if truthy a && truthy (st !! AUTH_KEY) then HomeScreen else LoginScreen).
Proof.
  rewrite resolve_step, element_for_root.
  destruct (truthy a); cbv iota beta; simpl andb.
  - apply resolve_home.
  - rewrite resolve_step, element_for_login. reflexivity.
Qed.

Lemma resolve_any (a : option string) (st : Storage) (path : string) :
  let p := list_ascii_of_string path in
  resolve 4 a st path
  = Some (if matches (list_ascii_of_string "/") p then
            if truthy a && truthy (st !! AUTH_KEY) then HomeScreen else LoginScreen
          else if matches (list_ascii_of_string "/login") p then LoginScreen
          else if matches (list_ascii_of_string "/home") p then
            if truthy (st !! AUTH_KEY) then HomeScreen else LoginScreen
          else if truthy a && truthy (st !! AUTH_KEY) then HomeScreen
          else LoginScreen).
Proof.
  intros p. rewrite resolve_step. unfold element_for at 1. fold p.
  destruct (matches (list_ascii_of_string "/") p).
  - cbv iota beta. destruct (truthy a); cbv iota beta; simpl andb.
    + apply resolve_home.
    + rewrite resolve_step, element_for_login. reflexivity.
  - destruct (matches (list_ascii_of_string "/login") p); [reflexivity|].
    destruct (matches (list_ascii_of_string "/home") p).
    + destruct (truthy (st !! AUTH_KEY)); cbv iota beta; [reflexivity|].
      rewrite resolve_step, element_for_login. reflexivity.
    + cbv iota beta. apply resolve_root.
Qed.

Lemma root_not_login (path : string) :
  matches (list_ascii_of_string "/") (list_ascii_of_string path) = true ->
  matches (list_ascii_of_string "/login") (list_ascii_of_string path) = false.
Proof.
  unfold matches. cbn [list_ascii_of_string length].
  destruct (list_ascii_of_string path) as [|c [|c2 r]]; cbn [firstn skipn map].
  - intros _. destruct (List.list_eq_dec _ _ _) as [E|]; [discriminate E|reflexivity].
  - intros _. destruct (List.list_eq_dec _ _ _) as [E|]; [discriminate E|reflexivity].
  - destruct (List.list_eq_dec _ [lower c] _) as [_|]; [|discriminate].
    intros Hs. cbn [forallb] in Hs.
    apply andb_true_iff in Hs as [Hs _]. apply Ascii.eqb_eq in Hs. subst c2.
    destruct (List.list_eq_dec _ _ _) as [E|]; [|reflexivity].
    injection E as _ E2. vm_compute in E2. discriminate E2.
Qed.

Lemma element_for_targets (a : option string) (st : Storage) (p to : string) :
  element_for a st p = Navigate to -> to = "/" \/ to = "/login" \/ to = "/home".
Proof.
  unfold element_for.
  repeat match goal with |- context [if ?b then _ else _] => destruct b end;
    intros H; inversion H; auto.
Qed.

Lemma route_step (decode : string -> string) (f : nat) (a : option string)
    (st : Storage) (path : string) :
  route decode (S f) a st path
  = match element_for a st (decode path) with
    | Render sc => Some sc
    | Navigate to => route decode f a st to
    end.
Proof. reflexivity. Qed.

(** A decoding that leaves the redirect targets as they are changes only
    the first location. *)
Lemma route_resolve (decode : string -> string)
    (Hd : decode "/" = "/" /\ decode "/login" = "/login"
          /\ decode "/home" = "/home")
    (n : nat) (a : option string) (st : Storage) (path : string) :
  route decode n a st path = resolve n a st (decode path).
Proof.
  revert path; induction n as [|n IH]; intros path; [reflexivity|].
  rewrite route_step, resolve_step.
  destruct (element_for a st (decode path)) as [sc|to] eqn:E; [reflexivity|].
  rewrite IH. apply element_for_targets in E.
  destruct Hd as (H1 & H2 & H3).
  destruct E as [-> | [-> | ->]]; [rewrite H1 | rewrite H2 | rewrite H3]; reflexivity.
Qed.

End RoutingFacts.

(* ------------------------------------------------------------------ *)
(** ** Handlers, storage, map, rendering and routes *)

Lemma handleSearch_dispatch (s : Session.State) :
  let t := Validator.trim (list_ascii_of_string (Session.search s)) in
  let s' := Session.handleSearch s in
  Session.inflight s'
    = match Validator.classify (Session.search s) with
      | Validator.Invalid => Session.inflight s
      | _ => (Session.next_tag s, string_of_list_ascii t) :: Session.inflight s
      end
  /\ Session.error s'
    = match Validator.classify (Session.search s) with
      | Validator.Invalid =>
          match t with
          | [] => Session.EMPTY_ERROR
          | _ :: _ => Session.INVALID_ERROR
          end
      | _ => ""
      end.
Proof.
  intros t s'.
  split;
    unfold s', Session.handleSearch, Validator.classify;
    replace (Session.search (Session.set_error "" s)) with (Session.search s)
      by (destruct s; reflexivity);
    fold t; destruct t as [|c r] eqn:Et;
    try (cbn [string_of_list_ascii String.eqb]; destruct s; reflexivity);
    cbn [string_of_list_ascii];
    replace (String.eqb (String c (string_of_list_ascii r)) "") with false
      by reflexivity; cbv zeta;
    replace (list_ascii_of_string (String c (string_of_list_ascii r)))
      with (c :: r)
      by (cbn; rewrite list_ascii_of_string_of_list_ascii; reflexivity);
    destruct (Validator.test Validator.ipv4 (c :: r)),
             (Validator.test Validator.ipv6 (c :: r));
    cbn [negb andb]; try (destruct s; reflexivity);
    destruct (fetchGeoFor_inflight (String c (string_of_list_ascii r))
                (Session.set_error "" s)) as (H1 & _ & H3 & _);
    first [rewrite H1 | rewrite H3]; destruct s; reflexivity.
Qed.

(** X1. [handleSearch] dispatches a request exactly when the trimmed
    input is a valid address, for the trimmed text; otherwise it sets the
    empty-input message (blank input) or the invalid-address message and
    starts nothing. It never touches the result, the history or storage. *)
Theorem handleSearch_outcome (s : Session.State) :
  let t := Validator.trim (list_ascii_of_string (Session.search s)) in
  let s' := Session.handleSearch s in
  Session.inflight s'
    = match Validator.classify (Session.search s) with
      | Validator.Invalid => Session.inflight s
      | _ => (Session.next_tag s, string_of_list_ascii t) :: Session.inflight s
      end
  /\ Session.error s'
    = match Validator.classify (Session.search s) with
      | Validator.Invalid =>
          match t with
          | [] => Session.EMPTY_ERROR
          | _ :: _ => Session.INVALID_ERROR
          end
      | _ => ""
      end
  /\ Session.geo s' = Session.geo s
  /\ Session.history s' = Session.history s
  /\ Session.slot s' = Session.slot s.
Proof.
  intros t s'. destruct (handleSearch_keeps s) as (Hg & Hh & Hsl & _).
  destruct (handleSearch_dispatch s) as [Hi He].
  repeat split; assumption.
Qed.

(** X2. The Clear button empties the input and the message and starts
    the self-lookup ("geo"); when that lookup succeeds it replaces the
    current result but leaves the history and the storage slot as they
    were (the self-lookup is never recorded). *)
Theorem handleClear_self_lookup (s : Session.State) (d : GeoRecord) (w : string) :
  let s1 := Session.handleClear s in
  let s2 := Session.settle (Session.next_tag s) (Session.FetchOk d) w s1 in
  Session.search s1 = "" /\ Session.error s1 = ""
  /\ Session.inflight s1 = (Session.next_tag s, "geo") :: Session.inflight s
  /\ Session.geo s2 = Some d
  /\ Session.history s2 = Session.history s
  /\ Session.slot s2 = Session.slot s.
Proof.
  destruct s; unfold Session.handleClear, Session.settle, Session.fetchGeoFor;
    simpl. rewrite Nat.eqb_refl. simpl. repeat split.
Qed.

(** X3. Clicking an entry of a history (distinct ips, at most 50, no
    entry named "geo") and getting a successful answer moves that entry to
    the front with the new data and time; the others keep their order and
    the length is unchanged. *)
Theorem history_click_moves_to_front (s : Session.State) (i : nat)
    (h : HistoryEntry) (d : GeoRecord) (w : string)
    (Hi : nth_error (Session.history s) i = Some h)
    (Hnd : List.NoDup (map h_ip (Session.history s)))
    (Hlen : length (Session.history s) <= 50)
    (Hgeo : h_ip h <> "geo") :
  let s2 := Session.settle (Session.next_tag s) (Session.FetchOk d) w
              (Session.handleHistoryClick (h_ip h) s) in
  Session.history s2
    = mkEntry (h_ip h) d w
        :: (firstn i (Session.history s) ++ skipn (S i) (Session.history s))%list
  /\ length (Session.history s2) = length (Session.history s).
Proof.
  intros s2.
  destruct (fetchGeoFor_inflight (h_ip h) (Session.set_search (h_ip h) s))
    as (Hin & _ & _ & _ & Hhist & _).
  assert (Hf : Session.find_inflight (Session.next_tag s)
                 (Session.inflight (Session.handleHistoryClick (h_ip h) s))
               = Some (h_ip h)).
  { unfold Session.handleHistoryClick. rewrite Hin. destruct s; simpl.
    rewrite Nat.eqb_refl. reflexivity. }
  destruct (settle_ok _ _ d w _ Hf) as (_ & _ & _ & Hrec & _).
  assert (Hlt : i < length (Session.history s))
    by (apply nth_error_Some; rewrite Hi; discriminate).
  assert (Hs2 : Session.history s2
                = mkEntry (h_ip h) d w
                    :: (firstn i (Session.history s)
                        ++ skipn (S i) (Session.history s))%list).
  { unfold s2. rewrite Hrec.
    destruct (String.eqb_spec (h_ip h) "geo") as [E|_]; [congruence|].
    unfold Session.handleHistoryClick. rewrite Hhist.
    replace (Session.history (Session.set_search (h_ip h) s))
      with (Session.history s) by (destruct s; reflexivity).
    rewrite record_lookup_eq, (filter_remove_nth _ i h Hnd Hi).
    f_equal. apply firstn_all2.
    rewrite length_app, length_firstn, length_skipn. lia. }
  split; [exact Hs2|].
  rewrite Hs2. simpl. rewrite length_app, length_firstn, length_skipn. lia.
Qed.

(** X4. Looking up distinct addresses one after another, starting from an
    empty history, leaves the 50 most recent of them, newest first; the
    older ones are evicted. *)
Theorem history_keeps_newest (calls : list (string * GeoRecord * string))
    (Hd : List.NoDup (map (fun c => fst (fst c)) calls)) :
  map h_ip (record_all calls [])
  = firstn HISTORY_CAP (rev (map (fun c => fst (fst c)) calls)).
Proof.
  assert (H : List.NoDup (map (fun c => fst (fst c)) calls ++ map h_ip []))
    by (simpl; rewrite app_nil_r; exact Hd).
  destruct (record_all_fresh calls [] H) as [E | [-> _]].
  - rewrite E. simpl. rewrite app_nil_r. reflexivity.
  - reflexivity.
Qed.

Lemma sel_get_toggle (sel : Selection) (i j : nat) :
  sel_get (toggleSelect i sel) j
  = if Nat.eqb i j then negb (sel_get sel j) else sel_get sel j.
Proof.
  unfold toggleSelect, sel_get. unfold Selection in *. rewrite lookup_insert.
  destruct (Nat.eqb_spec i j) as [->|Hne]; case_decide; congruence.
Qed.

(** X5. Ticking a checkbox flips the mark at that index only; ticking it
    twice gives back the mark every index had. *)
Theorem toggle_select_marks (sel : Selection) (i j : nat) :
  sel_get (toggleSelect i sel) j
    = (if Nat.eqb i j then negb (sel_get sel j) else sel_get sel j)
  /\ sel_get (toggleSelect i (toggleSelect i sel)) j = sel_get sel j.
Proof.
  split; [apply sel_get_toggle|].
  rewrite !sel_get_toggle. destruct (Nat.eqb i j); [apply negb_involutive | reflexivity].
Qed.

(** X6. "Delete Selected" removes exactly as many entries as there are
    ticked indices among the history's indices; ticks at other indices
    remove nothing. *)
Theorem deleteSelected_count (s : Session.State) :
  length (Session.history (Session.deleteSelected s))
  = length (Session.history s)
    - length (List.filter (sel_get (Session.selectedForDelete s))
                (seq 0 (length (Session.history s)))).
Proof.
  pose proof (filter_unselected_length (Session.selectedForDelete s) 0
                (Session.history s)) as H.
  destruct s; simpl in *. lia.
Qed.

(** X7. Every change of the history is written through to storage: from a
    state whose storage slot holds the history (or is removed while the
    history is empty), every sequence of events keeps it so. *)
Theorem storage_tracks_history (s : Session.State) (es : list Session.Event)
    (Hs : Session.slot s = Some (Session.history s)
          \/ (Session.slot s = None /\ Session.history s = [])) :
  let s' := Session.run s es in
  Session.slot s' = Some (Session.history s')
  \/ (Session.slot s' = None /\ Session.history s' = []).
Proof. exact (run_synced s es Hs). Qed.

(** X8. What the history updater writes to storage,
    [JSON.stringify(deduped)], is read back by the history initialiser as
    the same JSON value: the array of the entries' [{ip, data, when}]
    objects, in order. *)
Theorem persisted_history_roundtrip (hist : list HistoryEntry) :
  Store.load (Store.GetString
                (Persist.stringify_text (Persist.history_json hist)))
  = Persist.history_json hist.
Proof. apply load_history_json. Qed.

(** X9. After any sequence of events from a state whose storage slot
    agrees with the history, reloading the page gives the initialiser the
    current history back. *)
Theorem reload_restores_history (s : Session.State) (es : list Session.Event)
    (Hs : Session.slot s = Some (Session.history s)
          \/ (Session.slot s = None /\ Session.history s = [])) :
  Store.load (Persist.storage_item (Session.run s es))
  = Persist.history_json (Session.history (Session.run s es)).
Proof.
  destruct (run_synced s es Hs) as [E | [E1 E2]];
    unfold Persist.storage_item; [rewrite E; apply load_history_json|].
  rewrite E1, E2. reflexivity.
Qed.

(** X10. The map effect is idempotent: running it twice with the same
    result leaves the map as one run does. *)
Theorem sync_map_idempotent (g : option GeoRecord) (m : option MapSync.MapState) :
  MapSync.sync_map g (MapSync.sync_map g m) = MapSync.sync_map g m.
Proof.
  destruct g as [g|], m as [m|]; try reflexivity. unfold MapSync.sync_map.
  destruct (MapSync.loc_parts g) as [|lat [|lon [|x r]]] eqn:E; try reflexivity.
  destruct (MapSync.is_nan lat || MapSync.is_nan lon) eqn:En; reflexivity.
Qed.

(** X11. A result with a usable location fully determines the map after
    the effect: whatever an earlier result did to the map, view, marker,
    popup and circle end as if that earlier run had not happened. *)
Theorem sync_map_latest_wins (g1 : option GeoRecord) (g2 : GeoRecord)
    (m : option MapSync.MapState) (Hu : MapSync.loc_usable g2 = true) :
  MapSync.sync_map (Some g2) (MapSync.sync_map g1 m)
  = MapSync.sync_map (Some g2) m.
Proof.
  unfold MapSync.loc_usable in Hu.
  destruct m as [m|]; [|destruct g1; reflexivity].
  assert (Hs : exists m', MapSync.sync_map g1 (Some m) = Some m').
  { destruct g1 as [g1|]; [|eexists; reflexivity]. unfold MapSync.sync_map.
    destruct (MapSync.loc_parts g1) as [|a [|b [|x r]]];
      try (eexists; reflexivity).
    destruct (MapSync.is_nan a || MapSync.is_nan b); eexists; reflexivity. }
  destruct Hs as [m' ->]. unfold MapSync.sync_map.
  destruct (MapSync.loc_parts g2) as [|lat [|lon [|x r]]]; try discriminate.
  apply negb_true_iff in Hu. rewrite Hu. reflexivity.
Qed.

(** X12. A search request always targets [https://ipinfo.io/<ip>/geo]
    for the trimmed input: an input that passes validation contains no
    [/], [?] or [#], so it can never change the path or add a query or
    fragment, and it is never the self-lookup "geo". *)
Theorem search_request_url (s : Session.State)
    (Hv : Validator.classify (Session.search s) <> Validator.Invalid) :
  let t := Validator.trim (list_ascii_of_string (Session.search s)) in
  let q := string_of_list_ascii t in
  Session.inflight (Session.handleSearch s)
    = (Session.next_tag s, q) :: Session.inflight s
  /\ Requests.fetch_url q = "https://ipinfo.io/" ++ q ++ "/geo"
  /\ forallb (fun c => negb (Requests.url_delim c)) (list_ascii_of_string q)
     = true.
Proof.
  intros t q. destruct (classify_accepts _ Hv) as (Hne & Htest & Hgeo).
  fold t in Hne, Htest, Hgeo.
  assert (Hq : list_ascii_of_string q = t)
    by apply list_ascii_of_string_of_list_ascii.
  split; [|split].
  - destruct (handleSearch_dispatch s) as [H _]. rewrite H.
    destruct (Validator.classify (Session.search s)); [reflexivity | reflexivity | congruence].
  - unfold Requests.fetch_url.
    destruct (String.eqb_spec q "geo") as [E|_]; [|reflexivity].
    exfalso. apply Hgeo. rewrite <- Hq, E. reflexivity.
  - rewrite Hq. apply accepted_no_delim, Htest.
Qed.

Lemma str_app_cons (x : ascii) (a b : string) : String x a ++ b = String x (a ++ b).
Proof. reflexivity. Qed.

Lemma str_app_assoc (a b c : string) : (a ++ b) ++ c = a ++ (b ++ c).
Proof.
  induction a as [|x a IH]; [reflexivity|]. rewrite !str_app_cons, IH. reflexivity.
Qed.

Lemma str_app_nil_r (a : string) : a ++ "" = a.
Proof. induction a as [|x a IH]; [reflexivity|]. rewrite str_app_cons, IH. reflexivity. Qed.

(** X13. A history row whose data has a city but no region or no country
    shows the text "undefined" in its summary line (the template literal
    prints the missing field). *)
Theorem history_summary_shows_undefined (g : GeoRecord)
    (Hc : truthy (g_city g) = true)
    (Hm : g_region g = None \/ g_country g = None) :
  exists pre post, Render.history_summary g = pre ++ "undefined" ++ post.
Proof.
  unfold Render.history_summary. rewrite Hc.
  destruct Hm as [Hr | Hco].
  - rewrite Hr. exists (Render.template_field (g_city g) ++ ", ").
    eexists. rewrite str_app_assoc. reflexivity.
  - rewrite Hco. exists (Render.template_field (g_city g) ++ ", "
                         ++ Render.template_field (g_region g) ++ ", "), "".
    rewrite str_app_nil_r, !str_app_assoc. reflexivity.
Qed.

(** X14. Row keys [h.ip + idx] are not always unique, even though the
    history never holds an address twice: after eleven lookups the entry
    "1.1.1.11" at index 0 and the entry "1.1.1.1" at index 10 both get the
    key "1.1.1.110". *)
Theorem row_keys_not_unique :
  exists es : list Session.Event,
    List.NoDup (map h_ip (Session.history (Session.run Samples.state0 es)))
    /\ ~ List.NoDup (Render.row_keys (Session.history (Session.run Samples.state0 es))).
Proof.
  exists (Samples2.lookup_events Samples2.eleven_ips 0). split.
  - apply NoDup_ListNoDup, (bool_decide_unpack _). vm_compute. reflexivity.
  - intro H. apply NoDup_ListNoDup, (bool_decide_pack _) in H.
    vm_compute in H. exact H.
Qed.

Lemma resolve_logged_out (a : option string) (st : Routing.Storage) (path : string) :
  truthy (st !! Routing.AUTH_KEY) = false ->
  Routing.resolve 4 a st path = Some Routing.LoginScreen.
Proof.
  intros H. rewrite resolve_any, H, andb_false_r.
  repeat match goal with |- context [if ?b then _ else _] => destruct b end;
    reflexivity.
Qed.

(** X15. The home screen renders only while storage holds a non-empty
    "authToken", however many redirects are followed and whatever token
    [App] read. *)
Theorem home_requires_token (fuel : nat) (a : option string)
    (st : Routing.Storage) (path : string)
    (H : Routing.resolve fuel a st path = Some Routing.HomeScreen) :
  truthy (st !! Routing.AUTH_KEY) = true.
Proof. exact (resolve_home_needs_token fuel a st path H). Qed.

(** X16. Without a stored token every path ends on the login screen
    within four renders ("/" and unknown paths redirect to "/login",
    "/home" is refused by [ProtectedRoute]). *)
Theorem logged_out_routes_to_login (a : option string) (st : Routing.Storage)
    (path : string) (H : truthy (st !! Routing.AUTH_KEY) = false) :
  Routing.resolve 4 a st path = Some Routing.LoginScreen.
Proof. exact (resolve_logged_out a st path H). Qed.

(** X17. With a token both read by [App] and in storage, every location
    ends on the home screen except those whose pathname, as the router
    matches it after its decoding, is "/login" (in any letter case, with
    trailing slashes): these show the login screen to a logged-in user.
    This holds for every decoding that leaves the redirect targets "/",
    "/login" and "/home" unchanged, with or without percent-decoding. *)
Theorem logged_in_routes (decode : string -> string) (a : option string)
    (st : Routing.Storage) (path : string)
    (Hd : decode "/" = "/" /\ decode "/login" = "/login"
          /\ decode "/home" = "/home")
    (Ha : truthy a = true)
    (Ht : truthy (st !! Routing.AUTH_KEY) = true) :
  Routing.route decode 4 a st path
  = Some (if Routing.matches (list_ascii_of_string "/login")
               (list_ascii_of_string (decode path))
          then Routing.LoginScreen else Routing.HomeScreen).
Proof.
  rewrite (route_resolve decode Hd), resolve_any, Ha, Ht.
  cbv iota beta. simpl andb. cbv iota beta.
  destruct (Routing.matches (list_ascii_of_string "/")
              (list_ascii_of_string (decode path))) eqn:Er.
  - rewrite (root_not_login _ Er). reflexivity.
  - destruct (Routing.matches (list_ascii_of_string "/login") _); [reflexivity|].
    destruct (Routing.matches (list_ascii_of_string "/home") _); reflexivity.
Qed.

(** X18. Logout removes only the token: after the reload every path ends
    on the login screen, and the saved history is still in storage for the
    history initialiser. *)
Theorem logout_keeps_history (st : Routing.Storage) (path : string) :
  let st' := Routing.logout st in
  Routing.resolve 4 (st' !! Routing.AUTH_KEY) st' path = Some Routing.LoginScreen
  /\ Routing.history_item st' = Routing.history_item st.
Proof.
  intros st'.
  assert (Hn : st' !! Routing.AUTH_KEY = None)
    by (unfold st', Routing.logout; unfold Routing.Storage in *;
        rewrite lookup_delete; case_decide; congruence).
  split.
  - apply resolve_logged_out. rewrite Hn. reflexivity.
  - unfold Routing.history_item, st', Routing.logout. unfold Routing.Storage in *.
    rewrite lookup_delete_ne; [reflexivity | discriminate].
Qed.

(** Witnesses. *)

Lemma history_click_moves_to_front_witness :
  nth_error (Session.history Samples.state3) 1 = Some Samples.entry1
  /\ Session.history
       (Session.settle (Session.next_tag Samples.state3)
          (Session.FetchOk Samples.geoA) "2026-10-02T09:00:00.000Z"
          (Session.handleHistoryClick (h_ip Samples.entry1) Samples.state3))
     = [mkEntry "8.8.8.8" Samples.geoA "2026-10-02T09:00:00.000Z";
        Samples.entry0; Samples.entry2].
Proof.
  split; [reflexivity|].
  exact (proj1 (history_click_moves_to_front Samples.state3 1 Samples.entry1
                  Samples.geoA "2026-10-02T09:00:00.000Z" eq_refl
                  ltac:(apply NoDup_ListNoDup, (bool_decide_unpack _); vm_compute; reflexivity)
                  ltac:(vm_compute; lia)
                  ltac:(vm_compute; discriminate))).
Defined.

Lemma history_keeps_newest_witness :
  map h_ip (record_all (map (fun n => (Render.nat_to_dec n, Samples.geoA, "t"))
                          (seq 0 51)) [])
  = firstn HISTORY_CAP
      (rev (map Render.nat_to_dec (seq 0 51))).
Proof.
  exact (history_keeps_newest
           (map (fun n => (Render.nat_to_dec n, Samples.geoA, "t")) (seq 0 51))
           ltac:(apply NoDup_ListNoDup, (bool_decide_unpack _); vm_compute; reflexivity)).
Defined.

Lemma storage_tracks_history_witness :
  Session.slot (Session.run Samples.state0 (Samples2.lookup_events ["8.8.8.8"] 0))
  = Some (Session.history
            (Session.run Samples.state0 (Samples2.lookup_events ["8.8.8.8"] 0)))
  \/ (Session.slot (Session.run Samples.state0 (Samples2.lookup_events ["8.8.8.8"] 0))
      = None
      /\ Session.history
           (Session.run Samples.state0 (Samples2.lookup_events ["8.8.8.8"] 0)) = []).
Proof.
  exact (storage_tracks_history Samples.state0 (Samples2.lookup_events ["8.8.8.8"] 0)
           (or_intror (conj eq_refl eq_refl))).
Defined.

Lemma reload_restores_history_witness :
  Store.load (Persist.storage_item
                (Session.run Samples.state0 (Samples2.lookup_events ["8.8.8.8"] 0)))
  = Persist.history_json
      (Session.history
         (Session.run Samples.state0 (Samples2.lookup_events ["8.8.8.8"] 0))).
Proof.
  exact (reload_restores_history Samples.state0 (Samples2.lookup_events ["8.8.8.8"] 0)
           (or_intror (conj eq_refl eq_refl))).
Defined.

Lemma sync_map_latest_wins_witness :
  MapSync.loc_usable Samples.geo_pinned = true
  /\ MapSync.sync_map (Some Samples.geo_pinned)
       (MapSync.sync_map (Some Samples.geoA) (Some MapSync.initial_map))
     = MapSync.sync_map (Some Samples.geo_pinned) (Some MapSync.initial_map).
Proof.
  split; [vm_compute; reflexivity|].
  exact (sync_map_latest_wins (Some Samples.geoA) Samples.geo_pinned
           (Some MapSync.initial_map) ltac:(vm_compute; reflexivity)).
Defined.

Lemma search_request_url_witness :
  Validator.classify " 8.8.8.8 " = Validator.IPv4
  /\ Requests.fetch_url "8.8.8.8" = "https://ipinfo.io/8.8.8.8/geo"
  /\ Session.inflight
       (Session.handleSearch (Session.set_search " 8.8.8.8 " Samples.state0))
     = [(0, "8.8.8.8")].
Proof.
  split; [vm_compute; reflexivity|].
  destruct (search_request_url (Session.set_search " 8.8.8.8 " Samples.state0)
              ltac:(vm_compute; discriminate)) as (H1 & H2 & _).
  split; [exact H2 | exact H1].
Defined.

Lemma history_summary_shows_undefined_witness :
  Render.history_summary Samples2.geo_partial = "Lyon, undefined, FR"
  /\ exists pre post,
       Render.history_summary Samples2.geo_partial = pre ++ "undefined" ++ post.
Proof.
  split; [reflexivity|].
  exact (history_summary_shows_undefined Samples2.geo_partial eq_refl
           (or_introl eq_refl)).
Defined.

Lemma home_requires_token_witness :
  Routing.resolve 4 None Samples2.storage_in "/home" = Some Routing.HomeScreen
  /\ truthy (Samples2.storage_in !! Routing.AUTH_KEY) = true.
Proof.
  assert (H : Routing.resolve 4 None Samples2.storage_in "/home"
              = Some Routing.HomeScreen) by (vm_compute; reflexivity).
  exact (conj H (home_requires_token 4 None Samples2.storage_in "/home" H)).
Defined.

Lemma logged_out_routes_to_login_witness :
  truthy (Samples2.storage_out !! Routing.AUTH_KEY) = false
  /\ Routing.resolve 4 (Some "stale") Samples2.storage_out "/Home/"
     = Some Routing.LoginScreen.
Proof.
  split; [vm_compute; reflexivity|].
  exact (logged_out_routes_to_login (Some "stale") Samples2.storage_out "/Home/"
           ltac:(vm_compute; reflexivity)).
Defined.

Lemma logged_in_routes_witness :
  truthy (Samples2.storage_in !! Routing.AUTH_KEY) = true
  /\ Routing.route Samples2.decode_sample 4 (Some "token-123") Samples2.storage_in
       "/%6Cogin" = Some Routing.LoginScreen
  /\ Routing.route (fun p => p) 4 (Some "token-123") Samples2.storage_in
       "/LOGIN//" = Some Routing.LoginScreen
  /\ Routing.route Samples2.decode_sample 4 (Some "token-123") Samples2.storage_in
       "/about" = Some Routing.HomeScreen.
Proof.
  split; [vm_compute; reflexivity|]. split; [|split].
  - exact (logged_in_routes Samples2.decode_sample (Some "token-123")
             Samples2.storage_in "/%6Cogin"
             ltac:(vm_compute; repeat split) eq_refl
             ltac:(vm_compute; reflexivity)).
  - exact (logged_in_routes (fun p => p) (Some "token-123")
             Samples2.storage_in "/LOGIN//"
             ltac:(repeat split) eq_refl ltac:(vm_compute; reflexivity)).
  - exact (logged_in_routes Samples2.decode_sample (Some "token-123")
             Samples2.storage_in "/about"
             ltac:(vm_compute; repeat split) eq_refl
             ltac:(vm_compute; reflexivity)).
Defined.
